(** * Button debounce (debounce-test.c): bit-parallel debouncing of eight keys

    The C program keeps three [volatile unsigned char] globals ([key_press],
    [key_state], [key_rpt]) and three [static unsigned char] locals of the
    timer interrupt ([ct0], [ct1], [rpt]).  Every byte is modelled as a [Z]
    and every assignment to an [unsigned char] truncates with [u8].  The
    timer interrupt is the function [ISR], taking the value read from
    [KEY_PIN]; the four accessors are state-passing functions returning the
    value and the new state.  The timer preload, the port set-up and the
    LED feedback of [main] do not touch these variables and are left out. *)

From Stdlib Require Import ZArith Lia List Bool Relations.
Import ListNotations.

Local Open Scope Z_scope.

(** ** Bytes *)

(** Conversion to [unsigned char]. *)
Definition u8 (x : Z) : Z := x mod 256.

(** ** Configuration ([#define]s of the source) *)

Definition KEY0 : Z := 7.
Definition KEY1 : Z := 6.
Definition KEY2 : Z := 5.
Definition KEY3 : Z := 4.

Definition REPEAT_MASK : Z :=
  Z.lor (Z.lor (Z.lor (Z.shiftl 1 KEY0) (Z.shiftl 1 KEY1)) (Z.shiftl 1 KEY2))
        (Z.shiftl 1 KEY3).
Definition REPEAT_START : Z := 50.
Definition REPEAT_NEXT : Z := 20.

(** ** State *)

Record state : Type := mkState {
  key_press : Z;   (* volatile unsigned char key_press *)
  key_state : Z;   (* volatile unsigned char key_state *)
  key_rpt   : Z;   (* volatile unsigned char key_rpt   *)
  ct0       : Z;   (* static unsigned char ct0 (ISR)   *)
  ct1       : Z;   (* static unsigned char ct1 (ISR)   *)
  rpt       : Z    (* static unsigned char rpt (ISR)   *)
}.

(** Globals and statics are zero-initialised by the C runtime. *)
Definition init : state := mkState 0 0 0 0 0 0.

Definition byte (x : Z) : Prop := 0 <= x < 256.

Definition wf (s : state) : Prop :=
  byte (key_press s) /\ byte (key_state s) /\ byte (key_rpt s) /\
  byte (ct0 s) /\ byte (ct1 s) /\ byte (rpt s).

(** ** The timer interrupt *)

(** [i = key_state ^ ~KEY_PIN] *)
Definition changed (pin : Z) (s : state) : Z :=
  u8 (Z.lxor (key_state s) (Z.lnot pin)).

(** [ct0 = ~( ct0 & i )] *)
Definition next_ct0 (pin : Z) (s : state) : Z :=
  u8 (Z.lnot (Z.land (ct0 s) (changed pin s))).

(** [ct1 = ct0 ^ (ct1 & i)], with the [ct0] just assigned *)
Definition next_ct1 (pin : Z) (s : state) : Z :=
  u8 (Z.lxor (next_ct0 pin s) (Z.land (ct1 s) (changed pin s))).

(** [i &= ct0 & ct1] *)
Definition confirmed (pin : Z) (s : state) : Z :=
  u8 (Z.land (changed pin s) (Z.land (next_ct0 pin s) (next_ct1 pin s))).

(** [key_state ^= i] *)
Definition next_key_state (pin : Z) (s : state) : Z :=
  u8 (Z.lxor (key_state s) (confirmed pin s)).

(** [key_press |= key_state & i] *)
Definition next_key_press (pin : Z) (s : state) : Z :=
  u8 (Z.lor (key_press s) (Z.land (next_key_state pin s) (confirmed pin s))).

(** [if( (key_state & REPEAT_MASK) == 0 ) rpt = REPEAT_START;] *)
Definition rpt_start (ks r : Z) : Z :=
  if Z.land ks REPEAT_MASK =? 0 then REPEAT_START else r.

(** [ISR(TIMER0_OVF_vect)]; [pin] is the value read from [KEY_PIN]. *)
Definition ISR (pin : Z) (s : state) : state :=
  let c0 := next_ct0 pin s in
  let c1 := next_ct1 pin s in
  let ks := next_key_state pin s in
  let kp := next_key_press pin s in
  let r  := u8 (rpt_start ks (rpt s) - 1) in        (* --rpt *)
  if r =? 0
  then mkState kp ks (u8 (Z.lor (key_rpt s) (Z.land ks REPEAT_MASK)))
               c0 c1 REPEAT_NEXT
  else mkState kp ks (key_rpt s) c0 c1 r.

(** ** The accessors *)

Definition set_key_press (v : Z) (s : state) : state :=
  mkState v (key_state s) (key_rpt s) (ct0 s) (ct1 s) (rpt s).

Definition set_key_rpt (v : Z) (s : state) : state :=
  mkState (key_press s) (key_state s) v (ct0 s) (ct1 s) (rpt s).

(** [get_key_press]: [key_mask &= key_press; key_press ^= key_mask;
    return key_mask]. *)
Definition get_key_press (key_mask : Z) (s : state) : Z * state :=
  let key_mask := u8 (Z.land (u8 key_mask) (key_press s)) in
  (key_mask, set_key_press (u8 (Z.lxor (key_press s) key_mask)) s).

(** [get_key_rpt]: [key_mask &= key_rpt; key_rpt ^= key_mask;
    return key_mask]. *)
Definition get_key_rpt (key_mask : Z) (s : state) : Z * state :=
  let key_mask := u8 (Z.land (u8 key_mask) (key_rpt s)) in
  (key_mask, set_key_rpt (u8 (Z.lxor (key_rpt s) key_mask)) s).

(** [get_key_short]: [return get_key_press( ~key_state & key_mask )]. *)
Definition get_key_short (key_mask : Z) (s : state) : Z * state :=
  get_key_press (Z.land (Z.lnot (key_state s)) (u8 key_mask)) s.

(** [get_key_long]: [return get_key_press( get_key_rpt( key_mask ))]. *)
Definition get_key_long (key_mask : Z) (s : state) : Z * state :=
  let (r, s1) := get_key_rpt key_mask s in
  get_key_press r s1.

(** Running the interrupt once per sample, first sample first. *)
Fixpoint run (pins : list Z) (s : state) : state :=
  match pins with
  | [] => s
  | p :: ps => run ps (ISR p s)
  end.

(** ** Per-channel readings of the state *)

(** The raw (inverted) level of channel [c] disagrees with its debounced
    level at the sample [pin]: bit [c] of [i = key_state ^ ~KEY_PIN]. *)
Definition disagrees (c pin : Z) (s : state) : bool :=
  Z.testbit (changed pin s) c.

(** The debounced level of channel [c]. *)
Definition level (c : Z) (s : state) : bool := Z.testbit (key_state s) c.

(** Channel [c] is at rest: both counter bits are set, which is what any
    sample that agrees with the debounced level leaves behind. *)
Definition at_rest (c : Z) (s : state) : Prop :=
  Z.testbit (ct0 s) c = true /\ Z.testbit (ct1 s) c = true.

(** The two counter bits of channel [c] read as a number: the pair
    [(ct1, ct0)] is kept complemented, so that rest is [0]. *)
Definition count (c : Z) (s : state) : Z :=
  2 * Z.b2z (negb (Z.testbit (ct1 s) c)) + Z.b2z (negb (Z.testbit (ct0 s) c)).

(** The update of [ct1] as the specification words it,
    [ct1 = changed XOR (ct1 AND changed)], to compare with [next_ct1]. *)
Definition spec_next_ct1 (pin : Z) (s : state) : Z :=
  u8 (Z.lxor (changed pin s) (Z.land (ct1 s) (changed pin s))).

(** The three samples before the end of [pins] all disagreed with the
    debounced level of channel [c], which they left as it was. *)
Definition three_disagreed (c : Z) (s : state) (pins : list Z) : Prop :=
  exists pre q0 q1 q2,
    pins = pre ++ [q0; q1; q2] /\
    disagrees c q0 (run pre s) = true /\
    disagrees c q1 (run (pre ++ [q0]) s) = true /\
    disagrees c q2 (run (pre ++ [q0; q1]) s) = true /\
    level c (run (pre ++ [q0]) s) = level c (run pre s) /\
    level c (run (pre ++ [q0; q1]) s) = level c (run pre s) /\
    level c (run pins s) = level c (run pre s).

(** The line of channel [c] reads asserted in the sample [pin]: the keys
    pull their pin low. *)
Definition asserted (c pin : Z) : bool := negb (Z.testbit pin c).

(** ** Polling after every tick *)

(** A caller that invokes one accessor [get] with [key_mask] after each
    interrupt: the values returned, in order, and the final state. *)
Fixpoint poll (get : Z -> state -> Z * state) (key_mask : Z)
    (pins : list Z) (s : state) : list Z * state :=
  match pins with
  | [] => ([], s)
  | p :: ps =>
      let (r, s1) := get key_mask (ISR p s) in
      let (rs, s2) := poll get key_mask ps s1 in
      (r :: rs, s2)
  end.

(** ** Histories of interrupts and accessor calls *)

Inductive event : Type :=
| Tick (pin : Z)
| Press (key_mask : Z)
| Rpt (key_mask : Z)
| Short (key_mask : Z)
| Long (key_mask : Z).

Definition apply_event (s : state) (e : event) : state :=
  match e with
  | Tick pin => ISR pin s
  | Press m => snd (get_key_press m s)
  | Rpt m => snd (get_key_rpt m s)
  | Short m => snd (get_key_short m s)
  | Long m => snd (get_key_long m s)
  end.

Definition exec (h : list event) (s : state) : state :=
  fold_left apply_event h s.

(** ** Interrupts and critical sections

    The accessors as sequences of statements running on a machine with an
    interrupt-enable flag.  [cli()] clears the flag and [sei()] sets it; the
    timer interrupt can be taken between two statements, and only while the
    flag is set.  [reg] is the parameter [key_mask] of the running
    accessor, which is also where its value is returned. *)

Inductive instr : Type :=
| Cli            (* cli() *)
| Sei            (* sei() *)
| AndPress       (* key_mask &= key_press *)
| XorPress       (* key_press ^= key_mask *)
| AndRpt         (* key_mask &= key_rpt *)
| XorRpt         (* key_rpt ^= key_mask *)
| ShortArg.      (* the argument ~key_state & key_mask *)

Record cpu : Type := mkCpu {
  mem : state;
  ien : bool;
  reg : Z
}.

Definition exec_instr (i : instr) (m : cpu) : cpu :=
  match i with
  | Cli => mkCpu (mem m) false (reg m)
  | Sei => mkCpu (mem m) true (reg m)
  | AndPress =>
      mkCpu (mem m) (ien m) (u8 (Z.land (u8 (reg m)) (key_press (mem m))))
  | XorPress =>
      mkCpu (set_key_press (u8 (Z.lxor (key_press (mem m)) (reg m))) (mem m))
            (ien m) (reg m)
  | AndRpt =>
      mkCpu (mem m) (ien m) (u8 (Z.land (u8 (reg m)) (key_rpt (mem m))))
  | XorRpt =>
      mkCpu (set_key_rpt (u8 (Z.lxor (key_rpt (mem m)) (reg m))) (mem m))
            (ien m) (reg m)
  | ShortArg =>
      mkCpu (mem m) (ien m)
            (Z.land (Z.lnot (key_state (mem m))) (u8 (reg m)))
  end.

Definition get_key_press_code : list instr := [Cli; AndPress; XorPress; Sei].
Definition get_key_rpt_code : list instr := [Cli; AndRpt; XorRpt; Sei].
Definition get_key_short_code : list instr :=
  Cli :: ShortArg :: get_key_press_code.
Definition get_key_long_code : list instr :=
  get_key_rpt_code ++ get_key_press_code.

Inductive step : list instr * cpu -> list instr * cpu -> Prop :=
| step_instr i k m :
    step (i :: k, m) (k, exec_instr i m)
| step_irq pin k m :
    ien m = true -> byte pin ->
    step (k, m) (k, mkCpu (ISR pin (mem m)) (ien m) (reg m)).

Definition steps := clos_refl_trans_1n _ step.

(** One timer interrupt with some sample, and any number of them. *)
Definition tick (s s' : state) : Prop :=
  exists pin, byte pin /\ s' = ISR pin s.

Definition ticks := clos_refl_trans_1n _ tick.

(** Every interleaving of [code] with timer interrupts behaves as some
    interrupts, then the function [f] in one piece, then some interrupts. *)
Definition atomic (code : list instr) (f : Z -> state -> Z * state) : Prop :=
  forall s e k final,
    steps (code, mkCpu s e k) ([], final) ->
    exists s1 s2,
      ticks s s1 /\ f k s1 = (reg final, s2) /\ ticks s2 (mem final).

(** The debounced level of channel [c] went from released to pressed at
    some tick of the history [h], run from reset. *)
Definition was_pressed (c : Z) (h : list event) : Prop :=
  exists h1 pin h2,
    h = h1 ++ Tick pin :: h2 /\
    level c (exec h1 init) = false /\
    level c (exec (h1 ++ [Tick pin]) init) = true.

(** ** The main loop *)

Definition LED0 : Z := 7.
Definition LED1 : Z := 6.
Definition LED2 : Z := 5.

(** The running light of [main]:
    [i = (i & 0x07) | ((i << 1) & 0xF0); if( i < 0xF0 ) i |= 0x08;]. *)
Definition shift_leds (i : Z) : Z :=
  let i := u8 (Z.lor (Z.land i 7) (Z.land (Z.shiftl i 1) 240)) in
  if i <? 240 then u8 (Z.lor i 8) else i.

(** One pass through the body of [while(1)] in [main], with no interrupt
    taken during the pass; [LED_PORT] is the output register.  The second
    operand of [||] is evaluated only when the first is zero. *)
Definition main_loop (s : state) (LED_PORT : Z) : state * Z :=
  let (k0, s) := get_key_press (Z.shiftl 1 KEY0) s in
  let LED_PORT :=
    if k0 =? 0 then LED_PORT else u8 (Z.lxor LED_PORT (Z.shiftl 1 LED0)) in
  let (k1, s) := get_key_short (Z.shiftl 1 KEY1) s in
  let LED_PORT :=
    if k1 =? 0 then LED_PORT else u8 (Z.lxor LED_PORT (Z.shiftl 1 LED1)) in
  let (k2, s) := get_key_long (Z.shiftl 1 KEY1) s in
  let LED_PORT :=
    if k2 =? 0 then LED_PORT else u8 (Z.lxor LED_PORT (Z.shiftl 1 LED2)) in
  let (k3, s) := get_key_press (Z.shiftl 1 KEY2) s in
  let (k4, s) :=
    if k3 =? 0 then get_key_rpt (Z.shiftl 1 KEY2) s else (k3, s) in
  let LED_PORT := if k4 =? 0 then LED_PORT else shift_leds LED_PORT in
  (s, LED_PORT).

(** ** More readings of histories *)

(** The samples of the interrupts of a history, in order. *)
Fixpoint samples (h : list event) : list Z :=
  match h with
  | [] => []
  | Tick pin :: h => pin :: samples h
  | _ :: h => samples h
  end.

(** What the accessor call [e] returns in state [s]. *)
Definition result (e : event) (s : state) : Z :=
  match e with
  | Tick _ => 0
  | Press m => fst (get_key_press m s)
  | Rpt m => fst (get_key_rpt m s)
  | Short m => fst (get_key_short m s)
  | Long m => fst (get_key_long m s)
  end.

(** The accessors that read [key_press]. *)
Definition reads_press (e : event) : bool :=
  match e with
  | Press _ | Short _ | Long _ => true
  | _ => false
  end.

(** The variables only the interrupt writes have the same values in [s]
    and [s']. *)
Definition same_isr_vars (s s' : state) : Prop :=
  key_state s = key_state s' /\ ct0 s = ct0 s' /\ ct1 s = ct1 s' /\
  rpt s = rpt s'.

(** ** Bit-level facts about bytes *)

Lemma u8_spec (x i : Z) :
  0 <= i -> Z.testbit (u8 x) i = Z.testbit x i && (i <? 8).
Proof.
  intros Hi. unfold u8. change 256 with (2 ^ 8).
  destruct (Z.ltb_spec i 8).
  - rewrite Z.mod_pow2_bits_low by lia. now rewrite andb_true_r.
  - rewrite Z.mod_pow2_bits_high by lia. now rewrite andb_false_r.
Qed.

Lemma u8_byte (x : Z) : byte (u8 x).
Proof. unfold byte, u8. apply Z.mod_pos_bound. lia. Qed.

Lemma u8_small (x : Z) : byte x -> u8 x = x.
Proof. unfold byte, u8. intros H. now apply Z.mod_small. Qed.

(** ** One channel at a time *)

Ltac bits :=
  repeat first
    [ rewrite u8_spec by lia
    | rewrite Z.lxor_spec
    | rewrite Z.land_spec
    | rewrite Z.lor_spec
    | rewrite Z.lnot_spec by lia ].

Ltac low c :=
  replace (c <? 8) with true in * by (symmetry; apply Z.ltb_lt; lia).

Section Channel.
Variable c : Z.
Hypothesis c_range : 0 <= c < 8.

Variables (pin : Z) (s : state).

Let ks := Z.testbit (key_state s) c.
Let kp := Z.testbit (key_press s) c.
Let b0 := Z.testbit (ct0 s) c.
Let b1 := Z.testbit (ct1 s) c.
Let ch := xorb ks (negb (Z.testbit pin c)).

Lemma changed_bit : Z.testbit (changed pin s) c = ch.
Proof. unfold changed. bits. low c. now rewrite andb_true_r. Qed.

Lemma next_ct0_bit : Z.testbit (next_ct0 pin s) c = negb (b0 && ch).
Proof.
  unfold next_ct0. bits. low c. rewrite changed_bit. now rewrite andb_true_r.
Qed.

Lemma next_ct1_bit :
  Z.testbit (next_ct1 pin s) c = xorb (negb (b0 && ch)) (b1 && ch).
Proof.
  unfold next_ct1. bits. low c.
  rewrite next_ct0_bit, changed_bit. now rewrite andb_true_r.
Qed.

Lemma confirmed_bit :
  Z.testbit (confirmed pin s) c =
  ch && (negb (b0 && ch) && xorb (negb (b0 && ch)) (b1 && ch)).
Proof.
  unfold confirmed. bits. low c.
  rewrite next_ct0_bit, next_ct1_bit, changed_bit. now rewrite andb_true_r.
Qed.

Lemma next_key_state_bit :
  Z.testbit (next_key_state pin s) c =
  xorb ks (Z.testbit (confirmed pin s) c).
Proof. unfold next_key_state. bits. low c. now rewrite andb_true_r. Qed.

Lemma next_key_press_bit :
  Z.testbit (next_key_press pin s) c =
  kp || (Z.testbit (next_key_state pin s) c
         && Z.testbit (confirmed pin s) c).
Proof. unfold next_key_press. bits. low c. now rewrite andb_true_r. Qed.
End Channel.

Lemma ISR_key_state pin s : key_state (ISR pin s) = next_key_state pin s.
Proof. unfold ISR. now destruct (_ =? 0). Qed.

Lemma ISR_key_press pin s : key_press (ISR pin s) = next_key_press pin s.
Proof. unfold ISR. now destruct (_ =? 0). Qed.

Lemma ISR_ct0 pin s : ct0 (ISR pin s) = next_ct0 pin s.
Proof. unfold ISR. now destruct (_ =? 0). Qed.

Lemma ISR_ct1 pin s : ct1 (ISR pin s) = next_ct1 pin s.
Proof. unfold ISR. now destruct (_ =? 0). Qed.

(** ** The counter of one channel *)

Lemma count_range c s : 0 <= count c s <= 3.
Proof.
  unfold count.
  destruct (Z.testbit (ct1 s) c), (Z.testbit (ct0 s) c); simpl; lia.
Qed.

Lemma at_rest_count c s : at_rest c s <-> count c s = 0.
Proof.
  unfold at_rest, count.
  destruct (Z.testbit (ct1 s) c), (Z.testbit (ct0 s) c); simpl;
    intuition (try discriminate; try lia).
Qed.

(** A tick resets the counter of a channel whose sample agrees and
    advances it, modulo four, otherwise. *)
Lemma count_ISR c pin s :
  0 <= c < 8 ->
  count c (ISR pin s) =
  if disagrees c pin s then (count c s + 1) mod 4 else 0.
Proof.
  intros Hc. unfold count, disagrees.
  rewrite ISR_ct0, ISR_ct1, next_ct0_bit, next_ct1_bit, changed_bit by lia.
  destruct (Z.testbit (key_state s) c), (Z.testbit pin c),
    (Z.testbit (ct0 s) c), (Z.testbit (ct1 s) c); reflexivity.
Qed.

(** The debounced level toggles exactly when the sample disagrees and the
    counter rolls over. *)
Lemma level_ISR c pin s :
  0 <= c < 8 ->
  level c (ISR pin s) =
  xorb (level c s) (disagrees c pin s && (count c s =? 3)).
Proof.
  intros Hc. unfold level, count, disagrees.
  rewrite ISR_key_state, next_key_state_bit, confirmed_bit, changed_bit by lia.
  destruct (Z.testbit (key_state s) c), (Z.testbit pin c),
    (Z.testbit (ct0 s) c), (Z.testbit (ct1 s) c); reflexivity.
Qed.

Lemma run_snoc pins p s : run (pins ++ [p]) s = ISR p (run pins s).
Proof.
  revert s. induction pins as [|q pins IH]; intros s; simpl; auto.
Qed.

(** A channel that is not at rest got there by a disagreeing sample that
    advanced its counter and left its level alone. *)
Lemma count_pred c s pins :
  0 <= c < 8 -> at_rest c s -> 1 <= count c (run pins s) ->
  exists pre q,
    pins = pre ++ [q] /\
    disagrees c q (run pre s) = true /\
    count c (run pre s) = count c (run pins s) - 1 /\
    level c (run pins s) = level c (run pre s).
Proof.
  intros Hc Hrest Hk.
  destruct pins as [|p pins] using rev_ind.
  - apply at_rest_count in Hrest. simpl in Hk. lia.
  - clear IHpins. exists pins, p. rewrite run_snoc in *.
    rewrite level_ISR by assumption.
    rewrite count_ISR in * by assumption.
    pose proof (count_range c (run pins s)) as Hr.
    destruct (disagrees c p (run pins s)); [|lia].
    assert (Hne : count c (run pins s) <> 3).
    { intros E. rewrite E in Hk. change ((3 + 1) mod 4) with 0 in Hk. lia. }
    rewrite Z.mod_small by lia.
    apply Z.eqb_neq in Hne. rewrite Hne.
    repeat split; try lia. now rewrite xorb_false_r.
Qed.

Lemma count_three c s pins :
  0 <= c < 8 -> at_rest c s -> count c (run pins s) = 3 ->
  three_disagreed c s pins.
Proof.
  intros Hc Hrest H3.
  destruct (count_pred c s pins Hc Hrest) as (l2 & q2 & E2 & D2 & C2 & L2);
    [lia|].
  destruct (count_pred c s l2 Hc Hrest) as (l1 & q1 & E1 & D1 & C1 & L1);
    [lia|].
  destruct (count_pred c s l1 Hc Hrest) as (l0 & q0 & E0 & D0 & C0 & L0);
    [lia|].
  exists l0, q0, q1, q2. subst l1 l2 pins.
  repeat rewrite <- app_assoc in *. simpl in *.
  repeat split; auto; congruence.
Qed.

(** ** Debouncing *)

(** A sample that agrees with the debounced level puts the channel at
    rest. *)
Lemma agree_at_rest c pin s :
  0 <= c < 8 -> disagrees c pin s = false -> at_rest c (ISR pin s).
Proof.
  intros Hc Hd. apply at_rest_count. now rewrite count_ISR, Hd.
Qed.

(** C1, as stated, fails.  Channel 0 is at rest and released after an idle
    tick out of reset.  Three consecutive samples that disagree with its
    debounced level leave that level as it was; it is the fourth
    consecutive disagreeing sample that toggles it. *)
Lemma three_samples_counterexample :
  disagrees 0 255 init = false /\
  disagrees 0 254 (ISR 255 init) = true /\
  disagrees 0 254 (run [254] (ISR 255 init)) = true /\
  disagrees 0 254 (run [254; 254] (ISR 255 init)) = true /\
  level 0 (run [254; 254; 254] (ISR 255 init)) = level 0 (ISR 255 init) /\
  disagrees 0 254 (run [254; 254; 254] (ISR 255 init)) = true /\
  level 0 (run [254; 254; 254; 254] (ISR 255 init))
  = negb (level 0 (ISR 255 init)).
Proof. repeat split. Qed.

(** C1, amended.  Let [s] be the state after a tick whose sample agreed
    with the debounced level of channel [c].  The debounced level of [c]
    changes only after four consecutive disagreeing samples: from [s] it
    does not change during the next three ticks, whatever is sampled; when
    four consecutive samples all disagree with it, the fourth toggles it;
    and whenever a later tick toggles it, that tick's sample disagreed and
    so did the three samples before it, none of which toggled it. *)
Theorem debounce_three_then_flip (c pin : Z) (s0 : state) :
  0 <= c < 8 -> disagrees c pin s0 = false ->
  let s := ISR pin s0 in
  (forall pins, (length pins <= 3)%nat -> level c (run pins s) = level c s) /\
  (forall p0 p1 p2 p3,
      disagrees c p0 s = true ->
      disagrees c p1 (run [p0] s) = true ->
      disagrees c p2 (run [p0; p1] s) = true ->
      disagrees c p3 (run [p0; p1; p2] s) = true ->
      level c (run [p0; p1; p2; p3] s) = negb (level c s)) /\
  (forall pins p,
      level c (run (pins ++ [p]) s) <> level c (run pins s) ->
      disagrees c p (run pins s) = true /\ three_disagreed c s pins).
Proof.
  intros Hc Hagree s.
  assert (Hrest : at_rest c s) by now apply agree_at_rest.
  assert (Hflip : forall pins p,
             level c (run (pins ++ [p]) s) <> level c (run pins s) ->
             disagrees c p (run pins s) = true /\ count c (run pins s) = 3).
  { intros pins p. rewrite run_snoc, level_ISR by assumption.
    destruct (disagrees c p (run pins s)); simpl.
    - destruct (Z.eqb_spec (count c (run pins s)) 3); simpl; auto.
      rewrite xorb_false_r. congruence.
    - rewrite xorb_false_r. congruence. }
  assert (Hslow : forall pins,
             (length pins <= 3)%nat ->
             level c (run pins s) = level c s /\
             count c (run pins s) <= Z.of_nat (length pins)).
  { induction pins as [|p pins IH] using rev_ind; intros Hlen.
    - simpl. apply at_rest_count in Hrest. split; [reflexivity | lia].
    - rewrite length_app in *. simpl in *.
      destruct IH as [IHl IHc]; [lia|].
      rewrite run_snoc, level_ISR, count_ISR by assumption.
      pose proof (count_range c (run pins s)) as Hr.
      destruct (disagrees c p (run pins s)); simpl.
      + destruct (Z.eqb_spec (count c (run pins s)) 3); [lia|].
        rewrite xorb_false_r, Z.mod_small by lia. split; [assumption | lia].
      + rewrite xorb_false_r. split; [assumption | lia]. }
  split; [|split].
  - intros pins Hlen. now apply Hslow.
  - intros p0 p1 p2 p3 D0 D1 D2 D3.
    apply at_rest_count in Hrest. simpl in *.
    rewrite level_ISR by assumption. rewrite D3.
    rewrite !level_ISR by assumption. rewrite D0, D1, D2.
    rewrite !count_ISR by assumption. rewrite D0, D1, D2, Hrest.
    simpl. now destruct (level c s).
  - intros pins p Hne. destruct (Hflip pins p Hne) as [Hd Hk].
    split; [assumption|]. now apply count_three.
Qed.

Lemma debounce_three_then_flip_witness :
  disagrees 0 255 init = false /\
  level 0 (run [254; 254; 254] (ISR 255 init)) = level 0 (ISR 255 init) /\
  level 0 (run [254; 254; 254; 254] (ISR 255 init))
  = negb (level 0 (ISR 255 init)).
Proof.
  assert (R : disagrees 0 255 init = false) by reflexivity.
  destruct (debounce_three_then_flip 0 255 init) as (A & B & _);
    [lia | exact R |].
  split; [exact R | split].
  - apply A. simpl. lia.
  - apply B; reflexivity.
Defined.

(** C10.  Out of reset every variable is zero, and so are the counter bits:
    a channel sampled asserted at the very first tick is debounced pressed,
    and its press is pending, after that single tick. *)
Theorem first_tick_out_of_reset (c pin : Z) :
  0 <= c < 8 -> asserted c pin = true ->
  level c (ISR pin init) = true /\
  Z.testbit (key_press (ISR pin init)) c = true.
Proof.
  intros Hc Ha. unfold asserted in Ha. apply negb_true_iff in Ha.
  unfold level.
  rewrite ISR_key_press, next_key_press_bit, ISR_key_state,
    next_key_state_bit, confirmed_bit by assumption.
  simpl. rewrite Ha, Z.bits_0. simpl. auto.
Qed.

Lemma first_tick_out_of_reset_witness :
  asserted 7 127 = true /\
  level 7 (ISR 127 init) = true /\
  Z.testbit (key_press (ISR 127 init)) 7 = true.
Proof.
  split; [reflexivity | apply (first_tick_out_of_reset 7 127)];
    [lia | reflexivity].
Defined.

(** C7.  During a tick a pending-press bit goes from 0 to 1 only if the
    debounced level of the same channel goes from 0 to 1 in that tick; a
    tick that takes the debounced level from 1 to 0 leaves the pending-press
    bit as it was. *)
Theorem press_only_on_rising_edge (c pin : Z) (s : state) :
  0 <= c < 8 ->
  (Z.testbit (key_press s) c = false ->
   Z.testbit (key_press (ISR pin s)) c = true ->
   level c s = false /\ level c (ISR pin s) = true) /\
  (level c s = true -> level c (ISR pin s) = false ->
   Z.testbit (key_press (ISR pin s)) c = Z.testbit (key_press s) c).
Proof.
  intros Hc. unfold level.
  rewrite ISR_key_press, next_key_press_bit, ISR_key_state,
    next_key_state_bit by assumption.
  destruct (Z.testbit (key_press s) c), (Z.testbit (key_state s) c),
    (Z.testbit (confirmed pin s) c); simpl; split; intros; auto; discriminate.
Qed.

Lemma press_only_on_rising_edge_witness :
  (Z.testbit (key_press init) 7 = false ->
   Z.testbit (key_press (ISR 127 init)) 7 = true ->
   level 7 init = false /\ level 7 (ISR 127 init) = true) /\
  (level 7 init = true -> level 7 (ISR 127 init) = false ->
   Z.testbit (key_press (ISR 127 init)) 7 = Z.testbit (key_press init) 7).
Proof. apply (press_only_on_rising_edge 7 127 init). lia. Defined.

(** ** The counter update *)

(** C2, as stated, fails: after an idle tick out of reset the code has set
    every bit of [ct1] (and of [ct0], so the stored pair reads 3, not 0),
    while [changed XOR (ct1 AND changed)] is 0. *)
Lemma ct1_formula_counterexample :
  changed 255 init = 0 /\
  ct0 (ISR 255 init) = 255 /\
  ct1 (ISR 255 init) = 255 /\
  spec_next_ct1 255 init = 0 /\
  ct1 (ISR 255 init) <> spec_next_ct1 255 init.
Proof. repeat split; try reflexivity. vm_compute. discriminate. Qed.

(** C2, amended.  On every tick [changed = key_state XOR (NOT KEY_PIN)],
    [ct0 = NOT (ct0 AND changed)] and [ct1 = ct0' XOR (ct1 AND changed)]
    with [ct0'] the value just given to [ct0]; read complemented, the
    counter of a channel is reset to zero when its [changed] bit is 0 and
    is incremented, modulo four, otherwise. *)
Theorem counter_update (pin : Z) (s : state) :
  changed pin s = u8 (Z.lxor (key_state s) (Z.lnot pin)) /\
  ct0 (ISR pin s) = u8 (Z.lnot (Z.land (ct0 s) (changed pin s))) /\
  ct1 (ISR pin s) =
    u8 (Z.lxor (ct0 (ISR pin s)) (Z.land (ct1 s) (changed pin s))) /\
  (forall c, 0 <= c < 8 ->
     count c (ISR pin s) =
     if Z.testbit (changed pin s) c then (count c s + 1) mod 4 else 0).
Proof.
  repeat split.
  - apply ISR_ct0.
  - now rewrite ISR_ct1, ISR_ct0.
  - intros c Hc. now apply count_ISR.
Qed.

Lemma counter_update_witness :
  count 7 (ISR 127 (ISR 255 init)) = 1 /\
  count 7 (ISR 255 (ISR 127 (ISR 255 init))) = 0.
Proof.
  split.
  - destruct (counter_update 127 (ISR 255 init)) as (_ & _ & _ & H).
    rewrite (H 7) by lia. reflexivity.
  - destruct (counter_update 255 (ISR 127 (ISR 255 init))) as (_ & _ & _ & H).
    rewrite (H 7) by lia. reflexivity.
Defined.

(** ** The accessors, bit by bit *)

Ltac bool_cases :=
  repeat match goal with
         | |- context [Z.testbit ?x ?i] => destruct (Z.testbit x i)
         | |- context [?i <? 8] => destruct (i <? 8)
         end; simpl; try reflexivity; try discriminate; auto.

Lemma get_key_press_ret_bit m s i :
  0 <= i ->
  Z.testbit (fst (get_key_press m s)) i =
  Z.testbit m i && Z.testbit (key_press s) i && (i <? 8).
Proof. intros Hi. unfold get_key_press. simpl. bits. bool_cases. Qed.

Lemma get_key_press_kp_bit m s i :
  0 <= i ->
  Z.testbit (key_press (snd (get_key_press m s))) i =
  Z.testbit (key_press s) i && negb (Z.testbit m i) && (i <? 8).
Proof. intros Hi. unfold get_key_press. simpl. bits. bool_cases. Qed.

Lemma get_key_rpt_ret_bit m s i :
  0 <= i ->
  Z.testbit (fst (get_key_rpt m s)) i =
  Z.testbit m i && Z.testbit (key_rpt s) i && (i <? 8).
Proof. intros Hi. unfold get_key_rpt. simpl. bits. bool_cases. Qed.

Lemma get_key_rpt_kr_bit m s i :
  0 <= i ->
  Z.testbit (key_rpt (snd (get_key_rpt m s))) i =
  Z.testbit (key_rpt s) i && negb (Z.testbit m i) && (i <? 8).
Proof. intros Hi. unfold get_key_rpt. simpl. bits. bool_cases. Qed.

Lemma get_key_short_ret_bit m s i :
  0 <= i ->
  Z.testbit (fst (get_key_short m s)) i =
  Z.testbit m i && negb (Z.testbit (key_state s) i)
  && Z.testbit (key_press s) i && (i <? 8).
Proof.
  intros Hi. unfold get_key_short. rewrite get_key_press_ret_bit by lia.
  bits. bool_cases.
Qed.

Lemma get_key_long_eq m s :
  get_key_long m s =
  get_key_press (fst (get_key_rpt m s)) (snd (get_key_rpt m s)).
Proof. reflexivity. Qed.

Lemma get_key_long_ret_bit m s i :
  0 <= i ->
  Z.testbit (fst (get_key_long m s)) i =
  Z.testbit m i && Z.testbit (key_rpt s) i
  && Z.testbit (key_press s) i && (i <? 8).
Proof.
  intros Hi. rewrite get_key_long_eq, get_key_press_ret_bit by lia.
  rewrite get_key_rpt_ret_bit by lia. simpl. bool_cases.
Qed.

(** ** Interleavings *)

Lemma steps_done m final :
  steps ([], m) ([], final) ->
  ticks (mem m) (mem final) /\ reg final = reg m.
Proof.
  intros H. remember ([], m) as x eqn:Ex. remember ([], final) as y eqn:Ey.
  revert m Ex Ey. induction H as [x | x y z Hxy Hyz IH]; intros m Ex Ey.
  - subst x. inversion Ey; subst. split; [constructor | reflexivity].
  - subst x z. inversion Hxy; subst.
    destruct (IH _ eq_refl eq_refl) as [Ht Hr]. simpl in *.
    split; [|assumption].
    econstructor; [|eassumption]. now exists pin.
Qed.

Lemma steps_cli k m final :
  steps (Cli :: k, m) ([], final) ->
  exists s1, ticks (mem m) s1 /\ steps (k, mkCpu s1 false (reg m)) ([], final).
Proof.
  intros H. remember (Cli :: k, m) as x eqn:Ex.
  remember ([], final) as y eqn:Ey.
  revert m Ex Ey. induction H as [x | x y z Hxy Hyz IH]; intros m Ex Ey.
  - subst x. discriminate.
  - subst x z. inversion Hxy; subst.
    + exists (mem m). split; [constructor | assumption].
    + destruct (IH _ eq_refl eq_refl) as (s1 & Ht & Hs). simpl in *.
      exists s1. split; [|assumption].
      econstructor; [|eassumption]. now exists pin.
Qed.

Lemma steps_masked i k m final :
  ien m = false ->
  steps (i :: k, m) ([], final) -> steps (k, exec_instr i m) ([], final).
Proof.
  intros He H. inversion H as [|y z Hxy Hyz]; subst.
  inversion Hxy; subst; [assumption | congruence].
Qed.

Lemma steps_run code m :
  steps (code, m) ([], fold_left (fun m i => exec_instr i m) code m).
Proof.
  revert m. induction code as [|i code IH]; intros m; simpl.
  - constructor.
  - econstructor; [apply step_instr | apply IH].
Qed.

Lemma get_key_press_atomic : atomic get_key_press_code get_key_press.
Proof.
  intros s e k final H.
  apply steps_cli in H. destruct H as (s1 & Ht & H). simpl in *.
  do 3 (apply steps_masked in H; [|reflexivity]; simpl in H).
  apply steps_done in H. destruct H as [Ht' Hr]. simpl in *.
  exists s1. eexists. split; [exact Ht | split; [|exact Ht']].
  unfold get_key_press. now rewrite Hr.
Qed.

Lemma get_key_rpt_atomic : atomic get_key_rpt_code get_key_rpt.
Proof.
  intros s e k final H.
  apply steps_cli in H. destruct H as (s1 & Ht & H). simpl in *.
  do 3 (apply steps_masked in H; [|reflexivity]; simpl in H).
  apply steps_done in H. destruct H as [Ht' Hr]. simpl in *.
  exists s1. eexists. split; [exact Ht | split; [|exact Ht']].
  unfold get_key_rpt. now rewrite Hr.
Qed.

Lemma get_key_short_atomic : atomic get_key_short_code get_key_short.
Proof.
  intros s e k final H.
  apply steps_cli in H. destruct H as (s1 & Ht & H). simpl in *.
  do 5 (apply steps_masked in H; [|reflexivity]; simpl in H).
  apply steps_done in H. destruct H as [Ht' Hr]. simpl in *.
  exists s1. eexists. split; [exact Ht | split; [|exact Ht']].
  unfold get_key_short, get_key_press. now rewrite Hr.
Qed.

(** [get_key_long] is two critical sections: interrupts can be taken
    between reading the repeat and reading the press. *)
Lemma get_key_long_sections s e k final :
  steps (get_key_long_code, mkCpu s e k) ([], final) ->
  exists s1 s2 s3 r,
    ticks s s1 /\ get_key_rpt k s1 = (r, s2) /\
    ticks s2 s3 /\ get_key_press r s3 = (reg final, snd (get_key_press r s3))
    /\ ticks (snd (get_key_press r s3)) (mem final).
Proof.
  intros H.
  apply steps_cli in H. destruct H as (s1 & Ht1 & H). simpl in *.
  do 3 (apply steps_masked in H; [|reflexivity]; simpl in H).
  apply steps_cli in H. destruct H as (s3 & Ht3 & H). simpl in *.
  do 3 (apply steps_masked in H; [|reflexivity]; simpl in H).
  apply steps_done in H. destruct H as [Ht' Hr]. simpl in *.
  exists s1. eexists. exists s3. eexists.
  split; [exact Ht1 | split; [reflexivity | split; [exact Ht3 | split]]].
  - unfold get_key_press. simpl. now rewrite Hr.
  - exact Ht'.
Qed.

Lemma exec_snoc h e s : exec (h ++ [e]) s = apply_event (exec h s) e.
Proof. unfold exec. now rewrite fold_left_app. Qed.

(** ** Every reachable state is a state of bytes *)

Lemma wf_init : wf init.
Proof. unfold wf, byte. simpl. lia. Qed.

Lemma wf_ISR pin s : wf s -> wf (ISR pin s).
Proof.
  intros (Hp & Hs & Hr & H0 & H1 & Hc). unfold ISR.
  destruct (_ =? 0); unfold wf; simpl;
    repeat match goal with
           | |- byte _ /\ _ => split
           end;
    try apply u8_byte; try assumption; unfold byte, REPEAT_NEXT; lia.
Qed.

Lemma wf_apply_event s e : wf s -> wf (apply_event s e).
Proof.
  intros W. destruct e as [pin | m | m | m | m]; [now apply wf_ISR | | | |];
    destruct W as (Hp & Hs & Hr & H0 & H1 & Hc);
    unfold wf; simpl;
    repeat match goal with
           | |- byte _ /\ _ => split
           end;
    try apply u8_byte; assumption.
Qed.

Lemma wf_exec h : wf (exec h init).
Proof.
  induction h as [|e h IH] using rev_ind.
  - apply wf_init.
  - rewrite exec_snoc. now apply wf_apply_event.
Qed.

(** ** Reading and clearing pending presses *)

(** C3.  [get_key_press m] returns the bits of [key_press] selected by [m]
    and clears exactly those bits, touching nothing else; and however the
    timer interrupt interleaves with its statements, the read and the clear
    happen in one piece: the outcome is that of some interrupts, then the
    whole function, then some interrupts. *)
Theorem get_key_press_read_and_clear (m : Z) (s : state) :
  (forall c, 0 <= c < 8 ->
     Z.testbit (fst (get_key_press m s)) c =
       Z.testbit m c && Z.testbit (key_press s) c /\
     Z.testbit (key_press (snd (get_key_press m s))) c =
       Z.testbit (key_press s) c && negb (Z.testbit m c)) /\
  Z.land (key_press (snd (get_key_press m s))) (fst (get_key_press m s)) = 0 /\
  (key_state (snd (get_key_press m s)) = key_state s /\
   key_rpt (snd (get_key_press m s)) = key_rpt s /\
   ct0 (snd (get_key_press m s)) = ct0 s /\
   ct1 (snd (get_key_press m s)) = ct1 s /\
   rpt (snd (get_key_press m s)) = rpt s) /\
  (forall e,
     steps (get_key_press_code, mkCpu s e m)
           ([], mkCpu (snd (get_key_press m s)) true
                      (fst (get_key_press m s)))) /\
  atomic get_key_press_code get_key_press.
Proof.
  split; [|split; [|split; [|split]]].
  - intros c Hc.
    rewrite get_key_press_ret_bit, get_key_press_kp_bit by lia.
    low c. now rewrite !andb_true_r.
  - apply Z.bits_inj'. intros i Hi.
    rewrite Z.land_spec, get_key_press_ret_bit, get_key_press_kp_bit by lia.
    rewrite Z.bits_0. bool_cases.
  - repeat split.
  - intros e. apply (steps_run get_key_press_code).
  - apply get_key_press_atomic.
Qed.

Lemma get_key_press_read_and_clear_witness :
  Z.testbit (fst (get_key_press 128 (ISR 127 init))) 7 = true /\
  Z.testbit (key_press (snd (get_key_press 128 (ISR 127 init)))) 7 = false.
Proof.
  destruct (get_key_press_read_and_clear 128 (ISR 127 init)) as (H & _).
  destruct (H 7) as [Hr Hk]; [lia|].
  rewrite Hr, Hk. split; reflexivity.
Defined.

(** C8.  A second [get_key_press m] directly after the first returns 0. *)
Theorem get_key_press_twice (m : Z) (s : state) :
  fst (get_key_press m (snd (get_key_press m s))) = 0.
Proof.
  apply Z.bits_inj'. intros i Hi.
  rewrite get_key_press_ret_bit, get_key_press_kp_bit by lia.
  rewrite Z.bits_0. bool_cases.
Qed.

(** C9.  With the empty mask each of the four accessors returns 0 and
    leaves the whole state as it was. *)
Theorem empty_mask_no_effect (s : state) :
  wf s ->
  get_key_press 0 s = (0, s) /\
  get_key_rpt 0 s = (0, s) /\
  get_key_short 0 s = (0, s) /\
  get_key_long 0 s = (0, s).
Proof.
  intros (Hp & _ & Hr & _).
  assert (P : get_key_press 0 s = (0, s)).
  { unfold get_key_press, set_key_press. change (u8 0) with 0.
    rewrite Z.land_0_l. change (u8 0) with 0.
    rewrite Z.lxor_0_r, (u8_small _ Hp). now destruct s. }
  assert (R : get_key_rpt 0 s = (0, s)).
  { unfold get_key_rpt, set_key_rpt. change (u8 0) with 0.
    rewrite Z.land_0_l. change (u8 0) with 0.
    rewrite Z.lxor_0_r, (u8_small _ Hr). now destruct s. }
  repeat split; auto.
  - unfold get_key_short. change (u8 0) with 0. now rewrite Z.land_0_r.
  - unfold get_key_long. now rewrite R.
Qed.

Lemma empty_mask_no_effect_witness :
  wf (ISR 127 init) /\
  get_key_press 0 (ISR 127 init) = (0, ISR 127 init) /\
  get_key_rpt 0 (ISR 127 init) = (0, ISR 127 init) /\
  get_key_short 0 (ISR 127 init) = (0, ISR 127 init) /\
  get_key_long 0 (ISR 127 init) = (0, ISR 127 init).
Proof.
  assert (W : wf (ISR 127 init)) by (vm_compute; intuition discriminate).
  split; [exact W | apply (empty_mask_no_effect _ W)].
Defined.

(** ** Short presses *)

Lemma was_pressed_snoc c h e : was_pressed c h -> was_pressed c (h ++ [e]).
Proof.
  intros (h1 & pin & h2 & E & Hb & Ha). subst h.
  exists h1, pin, (h2 ++ [e]). rewrite <- app_assoc. simpl. auto.
Qed.

(** A tick raises a pending-press bit only on a rising edge of the level. *)
Lemma key_press_rising c pin s :
  0 <= c < 8 ->
  Z.testbit (key_press s) c = false ->
  Z.testbit (key_press (ISR pin s)) c = true ->
  level c s = false /\ level c (ISR pin s) = true.
Proof.
  intros Hc. unfold level.
  rewrite ISR_key_press, next_key_press_bit, ISR_key_state,
    next_key_state_bit by assumption.
  destruct (Z.testbit (key_press s) c), (Z.testbit (key_state s) c),
    (Z.testbit (confirmed pin s) c); simpl; intros; auto; discriminate.
Qed.

(** The accessors never raise a pending-press bit. *)
Lemma accessor_keeps_clear c e s :
  0 <= c -> (forall pin, e <> Tick pin) ->
  Z.testbit (key_press (apply_event s e)) c = true ->
  Z.testbit (key_press s) c = true.
Proof.
  intros Hc Hne. destruct e as [pin | m | m | m | m]; cbn [apply_event].
  - now elim (Hne pin).
  - rewrite get_key_press_kp_bit by lia. bool_cases.
  - auto.
  - unfold get_key_short. rewrite get_key_press_kp_bit by lia. bool_cases.
  - rewrite get_key_long_eq, get_key_press_kp_bit by lia. simpl. bool_cases.
Qed.

(** A press that is pending was debounced at some earlier tick. *)
Lemma pending_was_pressed c h :
  0 <= c < 8 ->
  Z.testbit (key_press (exec h init)) c = true -> was_pressed c h.
Proof.
  intros Hc. induction h as [|e h IH] using rev_ind; intros Hp.
  - simpl in Hp. rewrite Z.bits_0 in Hp. discriminate.
  - rewrite exec_snoc in Hp.
    destruct (Z.testbit (key_press (exec h init)) c) eqn:E.
    + apply was_pressed_snoc. now apply IH.
    + destruct e as [pin | m | m | m | m];
        try (apply accessor_keeps_clear in Hp;
             [congruence | lia | intros pin; discriminate]).
      simpl in Hp. destruct (key_press_rising c pin _ Hc E Hp) as [Hb Ha].
      exists h, pin, []. rewrite exec_snoc. simpl. auto.
Qed.

(** C5.  [get_key_short m] is [get_key_press] of [m AND NOT key_state].
    A bit it returns belongs to a channel whose press is pending and whose
    debounced level is released at the call; in any history from reset,
    that channel was debounced pressed at an earlier tick.  No bit is
    returned for a channel whose debounced level is 1 at the call. *)
Theorem get_key_short_released_only (m : Z) (s : state) :
  get_key_short m s = get_key_press (Z.land m (Z.lnot (key_state s))) s /\
  (forall c, 0 <= c < 8 ->
     Z.testbit (fst (get_key_short m s)) c = true ->
     Z.testbit (key_press s) c = true /\ level c s = false) /\
  (forall c h, 0 <= c < 8 -> s = exec h init ->
     Z.testbit (fst (get_key_short m s)) c = true ->
     was_pressed c h /\ level c s = false) /\
  (forall c, 0 <= c < 8 -> level c s = true ->
     Z.testbit (fst (get_key_short m s)) c = false).
Proof.
  assert (Hbit : forall c, 0 <= c < 8 ->
             Z.testbit (fst (get_key_short m s)) c = true ->
             Z.testbit (key_press s) c = true /\ level c s = false).
  { intros c Hc. unfold level. rewrite get_key_short_ret_bit by lia.
    bool_cases. }
  split; [|split; [|split]].
  - unfold get_key_short, get_key_press.
    assert (E : u8 (Z.land (u8 (Z.land (Z.lnot (key_state s)) (u8 m)))
                       (key_press s))
                = u8 (Z.land (u8 (Z.land m (Z.lnot (key_state s))))
                         (key_press s))).
    { apply Z.bits_inj'. intros i Hi. bits. bool_cases. }
    now rewrite E.
  - exact Hbit.
  - intros c h Hc Hs Hr. destruct (Hbit c Hc Hr) as [Hp Hl].
    split; [|assumption]. apply pending_was_pressed; [assumption|].
    now rewrite <- Hs.
  - intros c Hc. unfold level. rewrite get_key_short_ret_bit by lia.
    intros ->. bool_cases.
Qed.

Lemma get_key_short_released_only_witness :
  Z.testbit
    (fst (get_key_short 128
            (exec [Tick 127; Tick 255; Tick 255; Tick 255; Tick 255] init)))
    7 = true /\
  was_pressed 7 [Tick 127; Tick 255; Tick 255; Tick 255; Tick 255] /\
  level 7 (exec [Tick 127; Tick 255; Tick 255; Tick 255; Tick 255] init)
  = false.
Proof.
  pose (h := [Tick 127; Tick 255; Tick 255; Tick 255; Tick 255]).
  assert (R : Z.testbit (fst (get_key_short 128 (exec h init))) 7 = true)
    by reflexivity.
  destruct (get_key_short_released_only 128 (exec h init)) as (_ & _ & H & _).
  split; [exact R | apply (H 7 h); [lia | reflexivity | exact R]].
Defined.

(** ** The repeat countdown *)

Lemma REPEAT_MASK_bit c :
  0 <= c -> Z.testbit REPEAT_MASK c = (4 <=? c) && (c <? 8).
Proof.
  intros Hc. change REPEAT_MASK with (Z.ldiff (Z.ones 8) (Z.ones 4)).
  rewrite Z.ldiff_spec, !Z.testbit_ones_nonneg by lia.
  destruct (Z.leb_spec 4 c), (Z.ltb_spec c 8), (Z.ltb_spec c 4);
    simpl; try reflexivity; lia.
Qed.

Lemma held_nonzero c ks :
  4 <= c < 8 -> Z.testbit ks c = true -> Z.land ks REPEAT_MASK <> 0.
Proof.
  intros Hc Hk E.
  assert (F : Z.testbit (Z.land ks REPEAT_MASK) c = true).
  { rewrite Z.land_spec, Hk, REPEAT_MASK_bit by lia.
    destruct (Z.leb_spec 4 c), (Z.ltb_spec c 8); simpl; try reflexivity; lia. }
  rewrite E, Z.bits_0 in F. discriminate.
Qed.

(** After a tick that leaves no repeat-eligible key debounced pressed, the
    countdown stands at [REPEAT_START - 1] and no repeat is recorded. *)
Lemma ISR_rpt_idle pin s :
  Z.land (key_state (ISR pin s)) REPEAT_MASK = 0 ->
  rpt (ISR pin s) = REPEAT_START - 1 /\ key_rpt (ISR pin s) = key_rpt s.
Proof.
  rewrite ISR_key_state. intros E. unfold ISR, rpt_start.
  rewrite E. simpl. auto.
Qed.

(** While some repeat-eligible key is debounced pressed, a tick counts
    down, and on reaching zero reloads and records the repeat. *)
Lemma ISR_rpt_held pin s :
  Z.land (key_state (ISR pin s)) REPEAT_MASK <> 0 ->
  1 <= rpt s < 256 ->
  (rpt s = 1 ->
   rpt (ISR pin s) = REPEAT_NEXT /\
   key_rpt (ISR pin s) =
     u8 (Z.lor (key_rpt s) (Z.land (key_state (ISR pin s)) REPEAT_MASK))) /\
  (rpt s <> 1 ->
   rpt (ISR pin s) = rpt s - 1 /\ key_rpt (ISR pin s) = key_rpt s).
Proof.
  rewrite ISR_key_state. intros Hne Hr. unfold ISR, rpt_start.
  apply Z.eqb_neq in Hne. rewrite Hne.
  rewrite (u8_small (rpt s - 1)) by (unfold byte; lia).
  destruct (Z.eqb_spec (rpt s - 1) 0); simpl; split; intros; auto; lia.
Qed.

(** A line that reads asserted keeps a pressed channel pressed. *)
Lemma held_stays c pin s :
  0 <= c < 8 -> level c s = true -> asserted c pin = true ->
  level c (ISR pin s) = true.
Proof.
  intros Hc Hl Ha. rewrite level_ISR by assumption.
  unfold disagrees. rewrite changed_bit by assumption.
  unfold level, asserted in *. rewrite Hl, Ha. reflexivity.
Qed.

Lemma poll_cons get m p ps s :
  fst (poll get m (p :: ps) s) =
  fst (get m (ISR p s)) :: fst (poll get m ps (snd (get m (ISR p s)))).
Proof.
  cbn [poll]. destruct (get m (ISR p s)) as [r s1]. simpl.
  now destruct (poll get m ps s1).
Qed.

(** While channel [c] is held, polling after every tick reports it exactly
    when the countdown runs out: first after [rpt s] ticks, then every
    [REPEAT_NEXT] ticks. *)
Lemma cadence_from c m pins :
  4 <= c < 8 -> Z.testbit m c = true ->
  Forall (fun p => asserted c p = true) pins ->
  forall s,
    level c s = true -> 1 <= rpt s < 256 -> Z.testbit (key_rpt s) c = false ->
    forall n, (n < length pins)%nat ->
      Z.testbit (nth n (fst (poll get_key_rpt m pins s)) 0) c = true <->
      exists j : nat, Z.of_nat n + 1 = rpt s + Z.of_nat j * REPEAT_NEXT.
Proof.
  intros Hc Hm Hheld.
  induction Hheld as [|p ps Hp Hps IH]; intros s Hl Hr Hk n Hn.
  - simpl in Hn. lia.
  - rewrite poll_cons.
    pose proof (held_stays c p s ltac:(lia) Hl Hp) as Hl'.
    pose proof (held_nonzero c _ Hc Hl') as Hnz.
    destruct (ISR_rpt_held p s Hnz Hr) as [Hfire Hwait].
    set (s1 := snd (get_key_rpt m (ISR p s))) in *.
    assert (Hl1 : level c s1 = true) by exact Hl'.
    assert (Hk1 : Z.testbit (key_rpt s1) c = false).
    { unfold s1. rewrite get_key_rpt_kr_bit, Hm by lia.
      now rewrite andb_false_r. }
    assert (Hr1 : rpt s1 = rpt (ISR p s)) by reflexivity.
    unfold REPEAT_NEXT in *.
    destruct (Z.eq_dec (rpt s) 1) as [E1 | N1].
    + destruct (Hfire E1) as [Er Ek].
      destruct n as [|n]; cbn [nth].
      * rewrite get_key_rpt_ret_bit, Hm, Ek by lia. bits.
        unfold level in Hl'. rewrite Hl', REPEAT_MASK_bit by lia.
        split; [intros _; exists 0%nat; lia|intros _].
        destruct (Z.leb_spec 4 c), (Z.ltb_spec c 8); lia.
      * simpl in Hn. rewrite IH by (assumption || lia).
        rewrite Hr1, Er, E1. split; intros [j Hj].
        -- exists (S j). lia.
        -- destruct j as [|j]; [lia | exists j; lia].
    + destruct (Hwait N1) as [Er Ek].
      destruct n as [|n]; cbn [nth].
      * rewrite get_key_rpt_ret_bit, Hm, Ek, Hk by lia. simpl.
        split; [discriminate | intros [j Hj]; lia].
      * simpl in Hn. rewrite IH by (assumption || lia).
        rewrite Hr1, Er. split; intros [j Hj]; exists j; lia.
Qed.

(** A tick records a repeat only for a repeat-eligible channel that is
    debounced pressed when the tick ends. *)
Lemma key_rpt_set_only_pressed c pin s :
  Z.testbit (key_rpt s) c = false ->
  Z.testbit (key_rpt (ISR pin s)) c = true ->
  level c (ISR pin s) = true /\ Z.testbit REPEAT_MASK c = true.
Proof.
  intros Hk. destruct (Z.lt_ge_cases c 0) as [Hneg | Hc].
  { now rewrite Z.testbit_neg_r by assumption. }
  unfold level. rewrite ISR_key_state. unfold ISR.
  destruct (_ =? 0); simpl; [|congruence].
  bits. rewrite Hk. simpl. intros H.
  apply andb_prop in H. destruct H as [H _].
  now apply andb_prop in H.
Qed.

Lemma get_key_long_kp_bit m s i :
  0 <= i ->
  Z.testbit (key_press (snd (get_key_long m s))) i =
  Z.testbit (key_press s) i
  && negb (Z.testbit m i && Z.testbit (key_rpt s) i) && (i <? 8).
Proof.
  intros Hi. rewrite get_key_long_eq, get_key_press_kp_bit by lia.
  rewrite get_key_rpt_ret_bit by lia. simpl. bool_cases.
Qed.

Lemma get_key_long_frame m s :
  key_state (snd (get_key_long m s)) = key_state s /\
  rpt (snd (get_key_long m s)) = rpt s /\
  key_rpt (snd (get_key_long m s)) = key_rpt (snd (get_key_rpt m s)).
Proof. repeat split. Qed.




(** The state in which a hold begins: an idle tick, then the tick that
    debounces the press of channel [c], then a [get_key_rpt]. *)
Lemma hold_begins c m p0 pT s0 :
  4 <= c < 8 -> Z.testbit m c = true ->
  Z.land (key_state (ISR p0 s0)) REPEAT_MASK = 0 ->
  level c (ISR pT (ISR p0 s0)) = true ->
  let s1 := snd (get_key_rpt m (ISR pT (ISR p0 s0))) in
  level c s1 = true /\ rpt s1 = REPEAT_START - 2 /\
  Z.testbit (key_rpt s1) c = false /\ Z.testbit (key_press s1) c = true.
Proof.
  intros Hc Hm Hidle Hl s1.
  destruct (ISR_rpt_idle p0 s0 Hidle) as [Hr0 _].
  pose proof (held_nonzero c _ Hc Hl) as Hnz.
  destruct (ISR_rpt_held pT (ISR p0 s0) Hnz) as [_ Hwait].
  { rewrite Hr0. unfold REPEAT_START. lia. }
  destruct Hwait as [Hr _]; [rewrite Hr0; unfold REPEAT_START; lia|].
  assert (Hl0 : level c (ISR p0 s0) = false).
  { assert (F : Z.testbit (Z.land (key_state (ISR p0 s0)) REPEAT_MASK) c
                = false) by (rewrite Hidle; apply Z.bits_0).
    rewrite Z.land_spec, REPEAT_MASK_bit in F by lia. unfold level.
    destruct (Z.leb_spec 4 c), (Z.ltb_spec c 8); try lia.
    now rewrite andb_true_r in F. }
  repeat split.
  - exact Hl.
  - change (rpt s1) with (rpt (ISR pT (ISR p0 s0))). rewrite Hr, Hr0. lia.
  - unfold s1. rewrite get_key_rpt_kr_bit, Hm by lia.
    now rewrite andb_false_r.
  - change (key_press s1) with (key_press (ISR pT (ISR p0 s0))).
    unfold level in *.
    rewrite ISR_key_press, next_key_press_bit by lia.
    rewrite ISR_key_state in Hl. rewrite Hl.
    rewrite next_key_state_bit, Hl0 in Hl by lia. simpl in Hl.
    rewrite Hl. apply orb_true_r.
Qed.

(** ** Repeats *)

(** C4, as stated, fails.  KEY0 is idle for one tick out of reset and then
    held: its press is debounced by the fourth asserted sample.  Polling
    [get_key_rpt] after every later tick, the repeat is reported 48 and 68
    ticks after the debouncing tick; nothing is reported at tick
    [REPEAT_START] = 50, nor one tick either side of it. *)
Lemma repeat_start_counterexample :
  level 7 (run [255; 127; 127; 127] init) = false /\
  level 7 (run [255; 127; 127; 127; 127] init) = true /\
  fst (poll get_key_rpt 128 (repeat 127 70)
         (snd (get_key_rpt 128 (run [255; 127; 127; 127; 127] init))))
  = repeat 0 47 ++ [128] ++ repeat 0 19 ++ [128] ++ repeat 0 2 /\
  nth (Z.to_nat REPEAT_START - 1)
      (fst (poll get_key_rpt 128 (repeat 127 70)
              (snd (get_key_rpt 128 (run [255; 127; 127; 127; 127] init)))))
      0 = 0.
Proof. repeat split; vm_compute; reflexivity. Qed.

(** C4, amended.  Let the press of a repeat-eligible channel [c] be
    debounced at the tick following a tick that left no repeat-eligible
    channel debounced pressed, and let its line stay asserted.  Polling
    [get_key_rpt] after every tick then reports [c] exactly
    [REPEAT_START - 2] ticks after the debouncing tick and every
    [REPEAT_NEXT] ticks thereafter.  And a tick never records a repeat for a
    channel that is debounced released when the tick ends. *)
Theorem repeat_cadence (c m p0 pT : Z) (s0 : state) (pins : list Z) :
  4 <= c < 8 -> Z.testbit m c = true ->
  Z.land (key_state (ISR p0 s0)) REPEAT_MASK = 0 ->
  level c (ISR pT (ISR p0 s0)) = true ->
  Forall (fun p => asserted c p = true) pins ->
  (forall n, (n < length pins)%nat ->
     Z.testbit
       (nth n (fst (poll get_key_rpt m pins
                      (snd (get_key_rpt m (ISR pT (ISR p0 s0)))))) 0) c
     = true <->
     exists j : nat,
       Z.of_nat n + 1 = REPEAT_START - 2 + Z.of_nat j * REPEAT_NEXT) /\
  (forall pin s,
     Z.testbit (key_rpt s) c = false -> level c (ISR pin s) = false ->
     Z.testbit (key_rpt (ISR pin s)) c = false).
Proof.
  intros Hc Hm Hidle Hl Hheld. split.
  - intros n Hn.
    destruct (hold_begins c m p0 pT s0 Hc Hm Hidle Hl) as (L & R & K & _).
    rewrite (cadence_from c m pins Hc Hm Hheld _ L) by
      (try assumption; rewrite R; unfold REPEAT_START; lia).
    now rewrite R.
  - intros pin s Hk Hrel.
    destruct (Z.testbit (key_rpt (ISR pin s)) c) eqn:E; [|reflexivity].
    destruct (key_rpt_set_only_pressed c pin s Hk E). congruence.
Qed.

Lemma repeat_cadence_witness :
  Z.testbit
    (nth 47 (fst (poll get_key_rpt 128 (repeat 127 70)
                    (snd (get_key_rpt 128
                            (ISR 127 (ISR 127 (run [255; 127; 127] init)))))))
         0) 7 = true.
Proof.
  destruct (repeat_cadence 7 128 127 127 (run [255; 127; 127] init)
              (repeat 127 70)) as [H _].
  - lia.
  - reflexivity.
  - reflexivity.
  - reflexivity.
  - apply Forall_forall. intros p Hp. apply repeat_spec in Hp. now subst p.
  - apply (H 47%nat); [vm_compute; lia | exists 0%nat; reflexivity].
Defined.

(** ** Long presses *)




(** ** One channel as a small machine *)

Lemma disagrees_asserted c pin s :
  0 <= c < 8 -> disagrees c pin s = xorb (level c s) (asserted c pin).
Proof.
  intros Hc. unfold disagrees, level, asserted. now rewrite changed_bit.
Qed.

(** A tick records a press exactly on a rising edge. *)
Lemma press_ISR c pin s :
  0 <= c < 8 ->
  Z.testbit (key_press (ISR pin s)) c =
  Z.testbit (key_press s) c
  || (negb (level c s) && disagrees c pin s && (count c s =? 3)).
Proof.
  intros Hc. unfold level, count, disagrees.
  rewrite ISR_key_press, next_key_press_bit, next_key_state_bit,
    confirmed_bit, changed_bit by lia.
  destruct (Z.testbit (key_press s) c), (Z.testbit (key_state s) c),
    (Z.testbit pin c), (Z.testbit (ct0 s) c), (Z.testbit (ct1 s) c);
    reflexivity.
Qed.

Lemma same_isr_vars_ISR pin s s' :
  same_isr_vars s s' -> same_isr_vars (ISR pin s) (ISR pin s').
Proof.
  destruct s as [kp ks kr c0 c1 r], s' as [kp' ks' kr' c0' c1' r'].
  unfold same_isr_vars. simpl. intros (-> & -> & -> & ->).
  unfold ISR, next_key_state, confirmed, next_ct1, next_ct0, changed. simpl.
  destruct (_ =? 0); simpl; auto.
Qed.

Lemma same_isr_vars_run pins s s' :
  same_isr_vars s s' -> same_isr_vars (run pins s) (run pins s').
Proof.
  revert s s'. induction pins as [|p pins IH]; intros s s' H; simpl; auto.
  apply IH. now apply same_isr_vars_ISR.
Qed.

Lemma same_isr_vars_accessor e s :
  (forall pin, e <> Tick pin) -> same_isr_vars (apply_event s e) s.
Proof.
  intros Hne. destruct e as [pin | m | m | m | m];
    [now elim (Hne pin) | | | |]; repeat split.
Qed.

(** ** More on the accessors *)

(** X1.  [get_key_rpt m] returns the bits of [key_rpt] selected by [m] and
    clears exactly those, so that a second call directly after returns 0;
    it touches no other variable; and under any interleaving with the timer
    interrupt the read and the clear happen in one piece. *)
Theorem get_key_rpt_read_and_clear (m : Z) (s : state) :
  (forall c, 0 <= c < 8 ->
     Z.testbit (fst (get_key_rpt m s)) c =
       Z.testbit m c && Z.testbit (key_rpt s) c /\
     Z.testbit (key_rpt (snd (get_key_rpt m s))) c =
       Z.testbit (key_rpt s) c && negb (Z.testbit m c)) /\
  fst (get_key_rpt m (snd (get_key_rpt m s))) = 0 /\
  (key_press (snd (get_key_rpt m s)) = key_press s /\
   same_isr_vars (snd (get_key_rpt m s)) s) /\
  atomic get_key_rpt_code get_key_rpt.
Proof.
  split; [|split; [|split]].
  - intros c Hc.
    rewrite get_key_rpt_ret_bit, get_key_rpt_kr_bit by lia.
    low c. now rewrite !andb_true_r.
  - apply Z.bits_inj'. intros i Hi.
    rewrite get_key_rpt_ret_bit, get_key_rpt_kr_bit by lia.
    rewrite Z.bits_0. bool_cases.
  - repeat split.
  - apply get_key_rpt_atomic.
Qed.

Lemma get_key_rpt_read_and_clear_witness :
  Z.testbit (fst (get_key_rpt 255 (mkState 0 16 48 255 255 20))) 4 = true /\
  Z.testbit (key_rpt (snd (get_key_rpt 255 (mkState 0 16 48 255 255 20)))) 4
  = false.
Proof.
  destruct (get_key_rpt_read_and_clear 255 (mkState 0 16 48 255 255 20))
    as (H & _).
  destruct (H 4) as [Hr Hk]; [lia|].
  rewrite Hr, Hk. split; reflexivity.
Defined.

(** X2.  [get_key_short] samples [key_state] and reads and clears
    [key_press] in one critical section: under any interleaving with the
    timer interrupt it behaves as the whole function run at one instant.
    It leaves the press of a channel that is still debounced pressed
    pending, and writes nothing but [key_press]. *)
Theorem get_key_short_one_section (m : Z) (s : state) :
  atomic get_key_short_code get_key_short /\
  (forall c, 0 <= c < 8 -> level c s = true ->
     Z.testbit (key_press (snd (get_key_short m s))) c =
     Z.testbit (key_press s) c) /\
  key_rpt (snd (get_key_short m s)) = key_rpt s /\
  same_isr_vars (snd (get_key_short m s)) s.
Proof.
  split; [apply get_key_short_atomic | split; [|repeat split]].
  intros c Hc. unfold level, get_key_short. intros Hl.
  rewrite get_key_press_kp_bit by lia. bits. rewrite Hl. low c.
  simpl. now rewrite !andb_true_r.
Qed.

Lemma get_key_short_one_section_witness :
  Z.testbit (key_press (snd (get_key_short 255 (ISR 127 init)))) 7 = true.
Proof.
  destruct (get_key_short_one_section 255 (ISR 127 init)) as (_ & H & _).
  rewrite (H 7); [reflexivity | lia | reflexivity].
Defined.

(** X3.  [get_key_long] is two critical sections.  Run without
    interruption it is [get_key_press] of the value of [get_key_rpt]; under
    any interleaving with the timer interrupt it behaves as some
    interrupts, [get_key_rpt] in one piece, some interrupts, [get_key_press]
    of the value read, in one piece, and some interrupts. *)
Theorem get_key_long_two_sections (k : Z) (s : state) (e : bool) :
  steps (get_key_long_code, mkCpu s e k)
        ([], mkCpu (snd (get_key_long k s)) true (fst (get_key_long k s))) /\
  (forall final,
     steps (get_key_long_code, mkCpu s e k) ([], final) ->
     exists s1 s2 s3 r,
       ticks s s1 /\ get_key_rpt k s1 = (r, s2) /\ ticks s2 s3 /\
       get_key_press r s3 = (reg final, snd (get_key_press r s3)) /\
       ticks (snd (get_key_press r s3)) (mem final)).
Proof.
  split.
  - exact (steps_run get_key_long_code (mkCpu s e k)).
  - intros final H. exact (get_key_long_sections s e k final H).
Qed.

Lemma get_key_long_two_sections_witness :
  exists s1 s2 s3 r,
    ticks (ISR 127 init) s1 /\ get_key_rpt 128 s1 = (r, s2) /\ ticks s2 s3 /\
    get_key_press r s3
    = (fst (get_key_long 128 (ISR 127 init)), snd (get_key_press r s3)) /\
    ticks (snd (get_key_press r s3)) (snd (get_key_long 128 (ISR 127 init))).
Proof.
  destruct (get_key_long_two_sections 128 (ISR 127 init) true) as [R H].
  exact (H _ R).
Defined.

Lemma exec_run_same h :
  forall s s',
    same_isr_vars s s' -> same_isr_vars (exec h s) (run (samples h) s').
Proof.
  induction h as [|e h IH]; intros s s' H; [exact H|].
  change (exec (e :: h) s) with (exec h (apply_event s e)).
  destruct e as [pin | m | m | m | m]; cbn [samples run];
    try (apply IH; destruct H as (A & B & C & D); repeat split; assumption).
  apply IH. cbn [apply_event]. now apply same_isr_vars_ISR.
Qed.

(** X4.  Polling never disturbs the interrupt: after any history of
    interrupts and accessor calls, the debounced state, both counters and
    the repeat countdown are what the interrupts alone would have made
    them. *)
Theorem polling_leaves_isr_vars (h : list event) (s : state) :
  key_state (exec h s) = key_state (run (samples h) s) /\
  ct0 (exec h s) = ct0 (run (samples h) s) /\
  ct1 (exec h s) = ct1 (run (samples h) s) /\
  rpt (exec h s) = rpt (run (samples h) s).
Proof.
  assert (E : same_isr_vars s s) by (repeat split).
  exact (exec_run_same h s s E).
Qed.

(** ** Invariants of the reachable states *)

Lemma key_rpt_in_mask_event c s e :
  (Z.testbit (key_rpt s) c = true -> Z.testbit REPEAT_MASK c = true) ->
  Z.testbit (key_rpt (apply_event s e)) c = true ->
  Z.testbit REPEAT_MASK c = true.
Proof.
  intros Hs. destruct (Z.lt_ge_cases c 0) as [Hneg | Hc].
  { now rewrite Z.testbit_neg_r by assumption. }
  destruct e as [pin | m | m | m | m]; cbn [apply_event].
  - destruct (Z.testbit (key_rpt s) c) eqn:E; [auto|].
    intros H. now destruct (key_rpt_set_only_pressed c pin s E H).
  - exact Hs.
  - rewrite get_key_rpt_kr_bit by lia. intros H.
    apply Hs. destruct (Z.testbit (key_rpt s) c); [reflexivity|discriminate].
  - exact Hs.
  - destruct (get_key_long_frame m s) as (_ & _ & ->).
    rewrite get_key_rpt_kr_bit by lia. intros H.
    apply Hs. destruct (Z.testbit (key_rpt s) c); [reflexivity|discriminate].
Qed.

Lemma rpt_after_tick pin s : 1 <= rpt (ISR pin s) <= 255.
Proof.
  unfold ISR.
  destruct (Z.eqb_spec (u8 (rpt_start (next_key_state pin s) (rpt s) - 1)) 0)
    as [E | N]; simpl.
  - unfold REPEAT_NEXT. lia.
  - pose proof (u8_byte (rpt_start (next_key_state pin s) (rpt s) - 1)) as B.
    unfold byte in B. lia.
Qed.

(** X5.  In every state reached from reset by interrupts and accessor
    calls, each variable is a byte, a repeat is pending only for
    repeat-eligible channels, and, once an interrupt has run, the countdown
    is between 1 and 255. *)
Theorem reachable_invariant (h : list event) :
  wf (exec h init) /\
  (forall c, Z.testbit (key_rpt (exec h init)) c = true ->
             Z.testbit REPEAT_MASK c = true) /\
  (samples h <> [] -> 1 <= rpt (exec h init) <= 255).
Proof.
  split; [apply wf_exec | split].
  - induction h as [|e h IH] using rev_ind; intros c.
    + simpl. rewrite Z.bits_0. discriminate.
    + rewrite exec_snoc. apply key_rpt_in_mask_event. apply IH.
  - assert (E : same_isr_vars init init) by (repeat split).
    destruct (exec_run_same h init init E) as (_ & _ & _ & ->).
    destruct (samples h) as [|p l] using rev_ind; [congruence|].
    intros _. rewrite run_snoc. apply rpt_after_tick.
Qed.

Lemma reachable_invariant_witness :
  1 <= rpt (exec [Tick 127; Press 128] init) <= 255.
Proof.
  destruct (reachable_invariant [Tick 127; Press 128]) as (_ & _ & H).
  apply H. discriminate.
Defined.

(** ** Debouncing, channel by channel *)

(** X6.  The channels do not interfere: bit [c] of the debounced state, of
    the pending presses and of both counters after a tick depends only on
    bit [c] of the sample and of those four variables before it. *)
Theorem channels_independent (c pin pin' : Z) (s s' : state) :
  0 <= c < 8 ->
  Z.testbit pin c = Z.testbit pin' c ->
  Z.testbit (key_state s) c = Z.testbit (key_state s') c ->
  Z.testbit (key_press s) c = Z.testbit (key_press s') c ->
  Z.testbit (ct0 s) c = Z.testbit (ct0 s') c ->
  Z.testbit (ct1 s) c = Z.testbit (ct1 s') c ->
  Z.testbit (key_state (ISR pin s)) c = Z.testbit (key_state (ISR pin' s')) c /\
  Z.testbit (key_press (ISR pin s)) c = Z.testbit (key_press (ISR pin' s')) c /\
  Z.testbit (ct0 (ISR pin s)) c = Z.testbit (ct0 (ISR pin' s')) c /\
  Z.testbit (ct1 (ISR pin s)) c = Z.testbit (ct1 (ISR pin' s')) c.
Proof.
  intros Hc Hp Hs Hk H0 H1.
  rewrite !ISR_key_state, !ISR_key_press, !ISR_ct0, !ISR_ct1.
  rewrite !next_key_press_bit, !next_key_state_bit, !confirmed_bit,
    !next_ct0_bit, !next_ct1_bit by assumption.
  rewrite Hp, Hs, Hk, H0, H1. repeat split.
Qed.

Lemma channels_independent_witness :
  Z.testbit (key_state (ISR 127 init)) 7
  = Z.testbit (key_state (ISR 112 (mkState 15 0 0 7 8 3))) 7.
Proof.
  destruct (channels_independent 7 127 112 init (mkState 15 0 0 7 8 3))
    as (H & _); [lia | reflexivity .. | exact H].
Defined.

Lemma quiet_prefix c s pins :
  0 <= c < 8 -> at_rest c s -> (length pins <= 3)%nat ->
  level c (run pins s) = level c s /\
  Z.testbit (key_press (run pins s)) c = Z.testbit (key_press s) c /\
  count c (run pins s) <= Z.of_nat (length pins).
Proof.
  intros Hc Hrest.
  induction pins as [|p pins IH] using rev_ind; intros Hlen.
  - simpl. apply at_rest_count in Hrest. repeat split. lia.
  - rewrite length_app in *. simpl in *.
    destruct IH as (IHl & IHp & IHc); [lia|].
    rewrite run_snoc, level_ISR, press_ISR, count_ISR by assumption.
    pose proof (count_range c (run pins s)) as Hr.
    destruct (Z.eqb_spec (count c (run pins s)) 3); [lia|].
    rewrite !andb_false_r, orb_false_r, xorb_false_r.
    repeat split; try assumption.
    destruct (disagrees c p (run pins s)); [|lia].
    rewrite Z.mod_small by lia. lia.
Qed.

(** X7.  A bounce leaves no trace: from rest, up to three samples of any
    kind followed by one that agrees with the debounced level bring the
    channel back to rest with its level and its pending-press bit as they
    were. *)
Theorem bounce_leaves_no_trace (c p : Z) (pins : list Z) (s : state) :
  0 <= c < 8 -> at_rest c s -> (length pins <= 3)%nat ->
  disagrees c p (run pins s) = false ->
  at_rest c (run (pins ++ [p]) s) /\
  level c (run (pins ++ [p]) s) = level c s /\
  Z.testbit (key_press (run (pins ++ [p]) s)) c = Z.testbit (key_press s) c.
Proof.
  intros Hc Hrest Hlen Hagree.
  destruct (quiet_prefix c s pins Hc Hrest Hlen) as (Hl & Hp & _).
  rewrite run_snoc. split; [now apply agree_at_rest|].
  rewrite level_ISR, press_ISR, Hagree by assumption. simpl.
  rewrite andb_false_r, orb_false_r, xorb_false_r. auto.
Qed.

Lemma bounce_leaves_no_trace_witness :
  at_rest 7 (run ([127; 127; 127] ++ [255]) (ISR 255 init)) /\
  level 7 (run ([127; 127; 127] ++ [255]) (ISR 255 init))
  = level 7 (ISR 255 init) /\
  Z.testbit (key_press (run ([127; 127; 127] ++ [255]) (ISR 255 init))) 7
  = Z.testbit (key_press (ISR 255 init)) 7.
Proof.
  apply (bounce_leaves_no_trace 7 255 [127; 127; 127] (ISR 255 init)).
  - lia.
  - vm_compute. auto.
  - simpl. lia.
  - reflexivity.
Defined.

(** X8.  The interrupt never takes an event back: a press or a repeat that
    is pending stays pending through any number of ticks, until an
    accessor reads it. *)
Theorem ticks_keep_pending (c : Z) (pins : list Z) (s : state) :
  0 <= c < 8 ->
  (Z.testbit (key_press s) c = true ->
   Z.testbit (key_press (run pins s)) c = true) /\
  (Z.testbit (key_rpt s) c = true ->
   Z.testbit (key_rpt (run pins s)) c = true).
Proof.
  intros Hc. revert s.
  induction pins as [|p pins IH]; intros s; [simpl; auto|].
  cbn [run]. destruct (IH (ISR p s)) as [IHp IHr]. split; intros H.
  - apply IHp. rewrite press_ISR, H by assumption. reflexivity.
  - apply IHr. unfold ISR. destruct (_ =? 0); simpl; [|exact H].
    bits. rewrite H. low c. reflexivity.
Qed.

Lemma ticks_keep_pending_witness :
  Z.testbit (key_press (run [255; 255; 255; 255; 127] (ISR 127 init))) 7
  = true.
Proof.
  destruct (ticks_keep_pending 7 [255; 255; 255; 255; 127] (ISR 127 init))
    as [H _]; [lia|].
  apply H. reflexivity.
Defined.

(** ** How the accessors compose *)

(** X9.  Reading presses in two steps is reading them at once:
    [get_key_press m1] followed by [get_key_press m2] leaves the state that
    [get_key_press] of [m1 OR m2] leaves, and the two values together are
    its value; they share no bit. *)
Theorem get_key_press_split (m1 m2 : Z) (s : state) :
  let (r1, s1) := get_key_press m1 s in
  let (r2, s2) := get_key_press m2 s1 in
  s2 = snd (get_key_press (Z.lor m1 m2) s) /\
  Z.lor r1 r2 = fst (get_key_press (Z.lor m1 m2) s) /\
  Z.land r1 r2 = 0.
Proof.
  destruct (get_key_press m1 s) as [r1 s1] eqn:E1.
  destruct (get_key_press m2 s1) as [r2 s2] eqn:E2.
  assert (R1 : r1 = fst (get_key_press m1 s)) by now rewrite E1.
  assert (S1 : s1 = snd (get_key_press m1 s)) by now rewrite E1.
  assert (R2 : r2 = fst (get_key_press m2 s1)) by now rewrite E2.
  assert (S2 : s2 = snd (get_key_press m2 s1)) by now rewrite E2.
  assert (K : key_press s2 = key_press (snd (get_key_press (Z.lor m1 m2) s))).
  { subst s2 s1. apply Z.bits_inj'. intros i Hi.
    rewrite !get_key_press_kp_bit by lia. bits. bool_cases. }
  split; [|split].
  - subst s2 s1. unfold get_key_press in *. simpl in *.
    unfold set_key_press in *. simpl in *. now rewrite K.
  - subst r1 r2 s1. apply Z.bits_inj'. intros i Hi.
    rewrite Z.lor_spec, !get_key_press_ret_bit, get_key_press_kp_bit by lia.
    bits. bool_cases.
  - subst r1 r2 s1. apply Z.bits_inj'. intros i Hi.
    rewrite Z.land_spec, !get_key_press_ret_bit, get_key_press_kp_bit by lia.
    rewrite Z.bits_0. bool_cases.
Qed.

(** X10.  A press is delivered once, whichever accessor takes it: when
    [get_key_press], [get_key_short] or [get_key_long] returns the bit of a
    channel, none of the three, called directly afterwards with any mask,
    returns that bit. *)
Theorem press_delivered_once (e e' : event) (c : Z) (s : state) :
  0 <= c < 8 -> reads_press e = true -> reads_press e' = true ->
  Z.testbit (result e s) c = true ->
  Z.testbit (result e' (apply_event s e)) c = false.
Proof.
  intros Hc He He' Hr.
  assert (Hk : Z.testbit (key_press (apply_event s e)) c = false).
  { destruct e as [pin | m | m | m | m]; try discriminate;
      cbn [result apply_event] in *.
    - rewrite get_key_press_ret_bit in Hr by lia.
      rewrite get_key_press_kp_bit by lia. revert Hr. bool_cases.
    - unfold get_key_short in *.
      rewrite get_key_press_ret_bit in Hr by lia.
      rewrite get_key_press_kp_bit by lia. revert Hr. bool_cases.
    - rewrite get_key_long_ret_bit in Hr by lia.
      rewrite get_key_long_kp_bit by lia. revert Hr. bool_cases. }
  destruct e' as [pin | m | m | m | m]; try discriminate; cbn [result].
  - rewrite get_key_press_ret_bit, Hk by lia. bool_cases.
  - rewrite get_key_short_ret_bit, Hk by lia. bool_cases.
  - rewrite get_key_long_ret_bit, Hk by lia. bool_cases.
Qed.

Lemma press_delivered_once_witness :
  Z.testbit (result (Long 255) (apply_event (ISR 127 init) (Press 128))) 7
  = false.
Proof.
  apply (press_delivered_once (Press 128) (Long 255) 7 (ISR 127 init));
    [lia | reflexivity ..].
Defined.

(** ** More on repeats *)

(** X11.  A repeat-eligible key that is already down at the first tick
    after reset is debounced at once, but the countdown, which starts at 0,
    wraps around: while the key is held, polling [get_key_rpt] after every
    tick reports it first 255 ticks after that first tick, and every
    [REPEAT_NEXT] ticks thereafter. *)
Theorem repeat_after_reset (c m p : Z) (pins : list Z) :
  4 <= c < 8 -> Z.testbit m c = true ->
  asserted c p = true ->
  Forall (fun q => asserted c q = true) pins ->
  forall n, (n < length pins)%nat ->
    Z.testbit (nth n (fst (poll get_key_rpt m pins (ISR p init))) 0) c = true
    <-> exists j : nat, Z.of_nat n + 1 = 255 + Z.of_nat j * REPEAT_NEXT.
Proof.
  intros Hc Hm Hp Hheld n Hn.
  assert (Hl : level c (ISR p init) = true).
  { rewrite level_ISR, disagrees_asserted, Hp by lia.
    unfold level, count. simpl. now rewrite Z.bits_0. }
  assert (Hnz : Z.land (key_state (ISR p init)) REPEAT_MASK <> 0)
    by exact (held_nonzero c _ Hc Hl).
  assert (Hr : rpt (ISR p init) = 255 /\ key_rpt (ISR p init) = 0).
  { rewrite ISR_key_state in Hnz. apply Z.eqb_neq in Hnz.
    unfold ISR, rpt_start. rewrite Hnz. simpl. auto. }
  destruct Hr as [Hr Hk].
  rewrite (cadence_from c m pins Hc Hm Hheld (ISR p init) Hl); try lia.
  - now rewrite Hr.
  - now rewrite Hk, Z.bits_0.
Qed.

Lemma repeat_after_reset_witness :
  Z.testbit
    (nth 254 (fst (poll get_key_rpt 128 (repeat 127 260) (ISR 127 init))) 0) 7
  = true.
Proof.
  apply (repeat_after_reset 7 128 127 (repeat 127 260)).
  - lia.
  - reflexivity.
  - reflexivity.
  - apply Forall_forall. intros q Hq. apply repeat_spec in Hq. now subst q.
  - rewrite repeat_length. lia.
  - exists 0%nat. reflexivity.
Defined.

(** X12.  There is one countdown for all keys.  When it runs out, every
    repeat-eligible channel that is debounced pressed gets its repeat at
    that tick; and a held channel is first reported when the countdown it
    finds runs out, after [rpt s] ticks whatever that value is, then every
    [REPEAT_NEXT] ticks: a key pressed while another is held gets no
    [REPEAT_START] of its own. *)
Theorem countdown_is_shared (c m : Z) (pins : list Z) (s : state) :
  4 <= c < 8 -> Z.testbit m c = true ->
  Forall (fun p => asserted c p = true) pins ->
  level c s = true -> 1 <= rpt s < 256 -> Z.testbit (key_rpt s) c = false ->
  (forall n, (n < length pins)%nat ->
     Z.testbit (nth n (fst (poll get_key_rpt m pins s)) 0) c = true <->
     exists j : nat, Z.of_nat n + 1 = rpt s + Z.of_nat j * REPEAT_NEXT) /\
  (forall pin d,
     rpt s = 1 -> 4 <= d < 8 -> level d (ISR pin s) = true ->
     Z.testbit (key_rpt (ISR pin s)) d = true).
Proof.
  intros Hc Hm Hheld Hl Hr Hk. split.
  - intros n Hn. now apply cadence_from.
  - intros pin d E1 Hd Hld.
    pose proof (held_nonzero d _ Hd Hld) as Hnz.
    destruct (ISR_rpt_held pin s Hnz Hr) as [Hfire _].
    destruct (Hfire E1) as [_ ->]. bits.
    unfold level in Hld. rewrite Hld, REPEAT_MASK_bit by lia.
    destruct (Z.leb_spec 4 d), (Z.ltb_spec d 8); lia.
Qed.

Lemma countdown_is_shared_witness :
  Z.testbit
    (nth 4 (fst (poll get_key_rpt 64 (repeat 63 10)
                   (mkState 0 192 0 255 255 5))) 0) 6 = true.
Proof.
  destruct (countdown_is_shared 6 64 (repeat 63 10)
              (mkState 0 192 0 255 255 5)) as [H _].
  - lia.
  - reflexivity.
  - apply Forall_forall. intros q Hq. apply repeat_spec in Hq. now subst q.
  - reflexivity.
  - simpl. lia.
  - reflexivity.
  - apply (H 4%nat); [rewrite repeat_length; lia | exists 0%nat; reflexivity].
Defined.

(** ** Presses from the caller's side *)

(** One tick of one channel, from its level, counter and pending press. *)
Lemma view_step c p s l k b a l' k' b' :
  0 <= c < 8 ->
  level c s = l -> count c s = k -> Z.testbit (key_press s) c = b ->
  asserted c p = a ->
  xorb l (xorb l a && (k =? 3)) = l' ->
  (if xorb l a then (k + 1) mod 4 else 0) = k' ->
  b || (negb l && xorb l a && (k =? 3)) = b' ->
  level c (ISR p s) = l' /\ count c (ISR p s) = k' /\
  Z.testbit (key_press (ISR p s)) c = b'.
Proof.
  intros Hc <- <- <- <- <- <- <-.
  now rewrite level_ISR, count_ISR, press_ISR, disagrees_asserted by lia.
Qed.

(** X13.  A whole short press.  From a released channel at rest with no
    press pending, four asserted samples debounce the press: it is pending,
    yet [get_key_short] does not return it while the key is down.  Four
    released samples later the channel is debounced released and
    [get_key_short] returns it. *)
Theorem short_press_cycle (c m p0 p1 p2 p3 q0 q1 q2 q3 : Z) (s : state) :
  0 <= c < 8 -> Z.testbit m c = true ->
  at_rest c s -> level c s = false -> Z.testbit (key_press s) c = false ->
  asserted c p0 = true -> asserted c p1 = true ->
  asserted c p2 = true -> asserted c p3 = true ->
  asserted c q0 = false -> asserted c q1 = false ->
  asserted c q2 = false -> asserted c q3 = false ->
  let s1 := run [p0; p1; p2; p3] s in
  let s2 := run [q0; q1; q2; q3] s1 in
  (level c s1 = true /\ Z.testbit (key_press s1) c = true /\
   Z.testbit (fst (get_key_short m s1)) c = false) /\
  (level c s2 = false /\ Z.testbit (fst (get_key_short m s2)) c = true).
Proof.
  intros Hc Hm Hrest Hl Hk P0 P1 P2 P3 Q0 Q1 Q2 Q3 s1 s2.
  apply at_rest_count in Hrest.
  destruct (view_step c p0 s false 0 false true false 1 false
              Hc Hl Hrest Hk P0) as (L1 & C1 & K1); try reflexivity.
  destruct (view_step c p1 _ false 1 false true false 2 false
              Hc L1 C1 K1 P1) as (L2 & C2 & K2); try reflexivity.
  destruct (view_step c p2 _ false 2 false true false 3 false
              Hc L2 C2 K2 P2) as (L3 & C3 & K3); try reflexivity.
  destruct (view_step c p3 _ false 3 false true true 0 true
              Hc L3 C3 K3 P3) as (L4 & C4 & K4); try reflexivity.
  destruct (view_step c q0 _ true 0 true false true 1 true
              Hc L4 C4 K4 Q0) as (L5 & C5 & K5); try reflexivity.
  destruct (view_step c q1 _ true 1 true false true 2 true
              Hc L5 C5 K5 Q1) as (L6 & C6 & K6); try reflexivity.
  destruct (view_step c q2 _ true 2 true false true 3 true
              Hc L6 C6 K6 Q2) as (L7 & C7 & K7); try reflexivity.
  destruct (view_step c q3 _ true 3 true false false 0 true
              Hc L7 C7 K7 Q3) as (L8 & C8 & K8); try reflexivity.
  unfold s2, s1. cbn [run].
  repeat split; try assumption.
  - rewrite get_key_short_ret_bit by lia.
    unfold level in L4. rewrite L4. cbn [negb].
    rewrite andb_false_r. reflexivity.
  - rewrite get_key_short_ret_bit, Hm, K8 by lia.
    unfold level in L8. rewrite L8. low c. reflexivity.
Qed.

Lemma short_press_cycle_witness :
  Z.testbit
    (fst (get_key_short 64
            (run [255; 255; 255; 255] (run [191; 191; 191; 191]
                                           (ISR 255 init))))) 6 = true.
Proof.
  apply (short_press_cycle 6 64 191 191 191 191 255 255 255 255
           (ISR 255 init)); try reflexivity; [lia | vm_compute; auto].
Defined.

Lemma level_same_isr_vars c s s' :
  same_isr_vars s s' -> level c s = level c s'.
Proof. intros (E & _). unfold level. now rewrite E. Qed.

(** X14.  Polling [get_key_press] after every tick reports the presses and
    nothing else: with no press of channel [c] pending at the start, the
    call after tick [n] returns the bit of [c] exactly when that tick took
    the debounced level of [c] from released to pressed. *)
Theorem poll_press_reports_rising_edges (c m : Z) (pins : list Z) :
  0 <= c < 8 -> Z.testbit m c = true ->
  forall s n,
    Z.testbit (key_press s) c = false -> (n < length pins)%nat ->
    Z.testbit (nth n (fst (poll get_key_press m pins s)) 0) c = true <->
    level c (run (firstn n pins) s) = false /\
    level c (run (firstn (S n) pins) s) = true.
Proof.
  intros Hc Hm.
  induction pins as [|p ps IH]; intros s n Hk Hn; [simpl in Hn; lia|].
  rewrite poll_cons.
  set (s1 := snd (get_key_press m (ISR p s))).
  assert (Hk1 : Z.testbit (key_press s1) c = false).
  { unfold s1. rewrite get_key_press_kp_bit, Hm by lia.
    now rewrite andb_false_r. }
  assert (Hsame : same_isr_vars s1 (ISR p s)) by (repeat split).
  destruct n as [|n]; cbn [nth].
  - cbn [firstn run].
    rewrite get_key_press_ret_bit, Hm, press_ISR, Hk, level_ISR by lia.
    low c.
    destruct (level c s), (disagrees c p s), (count c s =? 3); simpl;
      intuition discriminate.
  - simpl in Hn. rewrite (IH s1 n Hk1) by lia.
    change (firstn (S n) (p :: ps)) with (p :: firstn n ps).
    change (firstn (S (S n)) (p :: ps)) with (p :: firstn (S n) ps).
    cbn [run].
    rewrite (level_same_isr_vars c _ _
               (same_isr_vars_run (firstn n ps) _ _ Hsame)).
    rewrite (level_same_isr_vars c _ _
               (same_isr_vars_run (firstn (S n) ps) _ _ Hsame)).
    reflexivity.
Qed.

Lemma poll_press_reports_rising_edges_witness :
  Z.testbit
    (nth 3 (fst (poll get_key_press 128 [127; 127; 127; 127; 127]
                   (ISR 255 init))) 0) 7 = true.
Proof.
  apply (poll_press_reports_rising_edges 7 128 [127; 127; 127; 127; 127]);
    [lia | reflexivity | reflexivity | simpl; lia | split; reflexivity].
Defined.

(** ** Properties of the main loop *)

Lemma shift_leds_u8 i : shift_leds i = shift_leds (u8 i).
Proof.
  unfold shift_leds.
  assert (E : u8 (Z.lor (Z.land i 7) (Z.land (Z.shiftl i 1) 240))
              = u8 (Z.lor (Z.land (u8 i) 7)
                          (Z.land (Z.shiftl (u8 i) 1) 240))).
  { apply Z.bits_inj'. intros n Hn.
    rewrite !u8_spec, !Z.lor_spec, !Z.land_spec by lia.
    change 7 with (Z.ones 3). change 240 with (Z.ldiff (Z.ones 8) (Z.ones 4)).
    rewrite Z.ldiff_spec, !Z.testbit_ones_nonneg by lia.
    destruct (Z.eq_dec n 0) as [-> | Hn0].
    - rewrite !Z.shiftl_spec_low by lia. rewrite u8_spec by lia.
      now destruct (Z.testbit i 0).
    - rewrite !Z.shiftl_spec by lia. rewrite !u8_spec by lia.
      destruct (Z.ltb_spec n 3), (Z.ltb_spec n 8), (Z.ltb_spec n 4),
        (Z.ltb_spec (n - 1) 8); try lia;
        destruct (Z.testbit i n), (Z.testbit i (n - 1)); reflexivity. }
  now rewrite E.
Qed.

Lemma byte_cases x : byte x -> In x (map Z.of_nat (seq 0 256)).
Proof.
  intros [H0 H1]. apply in_map_iff. exists (Z.to_nat x).
  split; [lia | apply in_seq; lia].
Qed.

(** X15.  The running light, bit by bit: [shift_leds] keeps bits 0 to 2,
    moves bits 3 to 6 up by one place, and sets bit 3 unless bits 3 to 6
    were all set.  Hence a single cleared bit among bits 3 to 7 walks up one
    place per step and returns from bit 7 to bit 3, the low bits staying as
    they are. *)
Theorem shift_leds_walks (i : Z) :
  (forall c, 0 <= c < 3 ->
     Z.testbit (shift_leds i) c = Z.testbit i c) /\
  (forall c, 4 <= c < 8 ->
     Z.testbit (shift_leds i) c = Z.testbit i (c - 1)) /\
  Z.testbit (shift_leds i) 3 =
    negb (Z.testbit i 3 && Z.testbit i 4 && Z.testbit i 5 && Z.testbit i 6) /\
  (forall k low, 3 <= k <= 7 -> 0 <= low < 8 ->
     shift_leds (248 - 2 ^ k + low) =
     248 - 2 ^ (if k =? 7 then 3 else k + 1) + low).
Proof.
  assert (B : forallb
            (fun x =>
               forallb (fun c => Bool.eqb (Z.testbit (shift_leds x) c)
                                          (Z.testbit x c)) [0; 1; 2]
               && forallb (fun c => Bool.eqb (Z.testbit (shift_leds x) c)
                                             (Z.testbit x (c - 1)))
                          [4; 5; 6; 7]
               && Bool.eqb (Z.testbit (shift_leds x) 3)
                    (negb (Z.testbit x 3 && Z.testbit x 4
                           && Z.testbit x 5 && Z.testbit x 6)))
            (map Z.of_nat (seq 0 256)) = true) by (vm_compute; reflexivity).
  rewrite forallb_forall in B.
  specialize (B (u8 i) (byte_cases _ (u8_byte i))).
  apply andb_prop in B. destruct B as [B B3].
  apply andb_prop in B. destruct B as [Blow Bhigh].
  rewrite forallb_forall in Blow, Bhigh.
  rewrite shift_leds_u8.
  split; [|split; [|split]].
  - intros c Hc.
    assert (Hin : In c [0; 1; 2]) by (simpl; lia).
    specialize (Blow c Hin). apply Bool.eqb_prop in Blow.
    rewrite Blow, u8_spec by lia.
    destruct (Z.ltb_spec c 8); [|lia]. apply andb_true_r.
  - intros c Hc.
    assert (Hin : In c [4; 5; 6; 7]) by (simpl; lia).
    specialize (Bhigh c Hin). apply Bool.eqb_prop in Bhigh.
    rewrite Bhigh, u8_spec by lia.
    destruct (Z.ltb_spec (c - 1) 8); [|lia]. apply andb_true_r.
  - apply Bool.eqb_prop in B3. rewrite B3, !u8_spec by lia.
    simpl. now rewrite !andb_true_r.
  - intros k low Hk Hlow.
    assert (Ek : k = 3 \/ k = 4 \/ k = 5 \/ k = 6 \/ k = 7) by lia.
    assert (El : low = 0 \/ low = 1 \/ low = 2 \/ low = 3 \/ low = 4 \/
                 low = 5 \/ low = 6 \/ low = 7) by lia.
    repeat (destruct Ek as [-> | Ek]); try subst k;
      repeat (destruct El as [-> | El]); try subst low; reflexivity.
Qed.

Lemma shift_leds_walks_witness :
  Z.testbit (shift_leds 239) 5 = Z.testbit 239 (5 - 1) /\
  shift_leds (248 - 2 ^ 7 + 5) = 248 - 2 ^ 3 + 5.
Proof.
  destruct (shift_leds_walks 239) as (_ & H & _ & W).
  split; [apply H; lia | apply (W 7 5); lia].
Defined.
Lemma shiftl1_bit c i :
  0 <= c -> 0 <= i -> Z.testbit (Z.shiftl 1 c) i = (c =? i).
Proof. intros Hc Hi. rewrite Z.shiftl_1_l. now apply Z.pow2_bits_eqb. Qed.

Lemma one_bit_zero c r b :
  0 <= c -> (forall i, 0 <= i -> Z.testbit r i = (c =? i) && b) ->
  (r =? 0) = negb b.
Proof.
  intros Hc H. destruct b; simpl.
  - apply Z.eqb_neq. intros E. specialize (H c Hc).
    rewrite E, Z.bits_0, Z.eqb_refl in H. discriminate.
  - apply Z.eqb_eq. apply Z.bits_inj'. intros i Hi.
    now rewrite H, Z.bits_0, andb_false_r.
Qed.

Ltac one_bit c :=
  apply (one_bit_zero c); [lia|]; intros i Hi;
  destruct (Z.eqb_spec c i) as [<- | Hne].

Lemma press_one c s :
  0 <= c < 8 ->
  (fst (get_key_press (Z.shiftl 1 c) s) =? 0)
  = negb (Z.testbit (key_press s) c).
Proof.
  intros Hc. one_bit c.
  - rewrite get_key_press_ret_bit, shiftl1_bit, Z.eqb_refl by lia.
    low c. now rewrite andb_true_r.
  - rewrite get_key_press_ret_bit, shiftl1_bit by lia.
    apply Z.eqb_neq in Hne. now rewrite Hne.
Qed.

Lemma rpt_one c s :
  0 <= c < 8 ->
  (fst (get_key_rpt (Z.shiftl 1 c) s) =? 0) = negb (Z.testbit (key_rpt s) c).
Proof.
  intros Hc. one_bit c.
  - rewrite get_key_rpt_ret_bit, shiftl1_bit, Z.eqb_refl by lia.
    low c. now rewrite andb_true_r.
  - rewrite get_key_rpt_ret_bit, shiftl1_bit by lia.
    apply Z.eqb_neq in Hne. now rewrite Hne.
Qed.

Lemma short_one c s :
  0 <= c < 8 ->
  (fst (get_key_short (Z.shiftl 1 c) s) =? 0)
  = negb (Z.testbit (key_press s) c && negb (level c s)).
Proof.
  intros Hc. unfold level. one_bit c.
  - rewrite get_key_short_ret_bit, shiftl1_bit, Z.eqb_refl by lia.
    low c. simpl. rewrite andb_true_r. apply andb_comm.
  - rewrite get_key_short_ret_bit, shiftl1_bit by lia.
    apply Z.eqb_neq in Hne. now rewrite Hne.
Qed.

Lemma long_one c s :
  0 <= c < 8 ->
  (fst (get_key_long (Z.shiftl 1 c) s) =? 0)
  = negb (Z.testbit (key_rpt s) c && Z.testbit (key_press s) c).
Proof.
  intros Hc. one_bit c.
  - rewrite get_key_long_ret_bit, shiftl1_bit, Z.eqb_refl by lia.
    low c. simpl. now rewrite andb_true_r.
  - rewrite get_key_long_ret_bit, shiftl1_bit by lia.
    apply Z.eqb_neq in Hne. now rewrite Hne.
Qed.

(** An accessor that returns 0 has written back what it read. *)
Lemma press_zero_same m s :
  wf s -> (fst (get_key_press m s) =? 0) = true -> get_key_press m s = (0, s).
Proof.
  intros (Hp & _) H. apply Z.eqb_eq in H.
  unfold get_key_press in *. cbn [fst] in H. rewrite H.
  unfold set_key_press. rewrite Z.lxor_0_r, (u8_small _ Hp). now destruct s.
Qed.

Lemma rpt_zero_same m s :
  wf s -> (fst (get_key_rpt m s) =? 0) = true -> get_key_rpt m s = (0, s).
Proof.
  intros (_ & _ & Hr & _) H. apply Z.eqb_eq in H.
  unfold get_key_rpt in *. cbn [fst] in H. rewrite H.
  unfold set_key_rpt. rewrite Z.lxor_0_r, (u8_small _ Hr). now destruct s.
Qed.

Lemma main_loop_eq s led :
  let a0 := get_key_press (Z.shiftl 1 KEY0) s in
  let led0 := if fst a0 =? 0 then led
              else u8 (Z.lxor led (Z.shiftl 1 LED0)) in
  let a1 := get_key_short (Z.shiftl 1 KEY1) (snd a0) in
  let led1 := if fst a1 =? 0 then led0
              else u8 (Z.lxor led0 (Z.shiftl 1 LED1)) in
  let a2 := get_key_long (Z.shiftl 1 KEY1) (snd a1) in
  let led2 := if fst a2 =? 0 then led1
              else u8 (Z.lxor led1 (Z.shiftl 1 LED2)) in
  let a3 := get_key_press (Z.shiftl 1 KEY2) (snd a2) in
  let a4 := if fst a3 =? 0 then get_key_rpt (Z.shiftl 1 KEY2) (snd a3)
            else (fst a3, snd a3) in
  main_loop s led = (snd a4, if fst a4 =? 0 then led2 else shift_leds led2).
Proof.
  intros. unfold main_loop.
  fold a0. destruct a0 as [k0 s0] eqn:E0. cbn [fst snd] in *.
  fold a1. destruct a1 as [k1 s1] eqn:E1. cbn [fst snd] in *.
  fold a2. destruct a2 as [k2 s2] eqn:E2. cbn [fst snd] in *.
  fold a3. destruct a3 as [k3 s3] eqn:E3. cbn [fst snd] in *.
  subst a4. destruct (k3 =? 0).
  - now destruct (get_key_rpt (Z.shiftl 1 KEY2) s3).
  - reflexivity.
Qed.
Lemma kp_after_press_one c d s :
  0 <= c < 8 -> 0 <= d < 8 ->
  Z.testbit (key_press (snd (get_key_press (Z.shiftl 1 c) s))) d
  = Z.testbit (key_press s) d && negb (c =? d).
Proof.
  intros Hc Hd. rewrite get_key_press_kp_bit, shiftl1_bit by lia.
  low d. apply andb_true_r.
Qed.

Lemma kp_after_short_one c d s :
  0 <= c < 8 -> 0 <= d < 8 ->
  Z.testbit (key_press (snd (get_key_short (Z.shiftl 1 c) s))) d
  = Z.testbit (key_press s) d && negb ((c =? d) && negb (level d s)).
Proof.
  intros Hc Hd. unfold get_key_short, level.
  rewrite get_key_press_kp_bit by lia. bits.
  rewrite shiftl1_bit by lia. low d.
  rewrite !andb_true_r. now rewrite (andb_comm (negb _) (c =? d)).
Qed.

Lemma kp_after_long_one c d s :
  0 <= c < 8 -> 0 <= d < 8 ->
  Z.testbit (key_press (snd (get_key_long (Z.shiftl 1 c) s))) d
  = Z.testbit (key_press s) d
    && negb ((c =? d) && Z.testbit (key_rpt s) d).
Proof.
  intros Hc Hd. rewrite get_key_long_kp_bit, shiftl1_bit by lia.
  low d. apply andb_true_r.
Qed.

Lemma kr_after_long_one c d s :
  0 <= c < 8 -> 0 <= d < 8 ->
  Z.testbit (key_rpt (snd (get_key_long (Z.shiftl 1 c) s))) d
  = Z.testbit (key_rpt s) d && negb (c =? d).
Proof.
  intros Hc Hd. destruct (get_key_long_frame (Z.shiftl 1 c) s) as (_ & _ & ->).
  rewrite get_key_rpt_kr_bit, shiftl1_bit by lia.
  low d. apply andb_true_r.
Qed.

(** X16.  A pass through the main loop with nothing to serve changes
    nothing: when no press is pending for KEY0 and KEY2, none for KEY1
    unless KEY1 is still down, and no repeat is pending for KEY1 and KEY2,
    the state and the LED port come out as they went in. *)
Theorem main_loop_idle (s : state) (LED_PORT : Z) :
  wf s ->
  Z.testbit (key_press s) KEY0 = false ->
  Z.testbit (key_press s) KEY1 = false \/ level KEY1 s = true ->
  Z.testbit (key_rpt s) KEY1 = false ->
  Z.testbit (key_press s) KEY2 = false ->
  Z.testbit (key_rpt s) KEY2 = false ->
  main_loop s LED_PORT = (s, LED_PORT).
Proof.
  intros W P0 P1 R1 P2 R2.
  assert (A0 : get_key_press (Z.shiftl 1 KEY0) s = (0, s)).
  { apply press_zero_same; [assumption|].
    rewrite press_one, P0 by (unfold KEY0; lia). reflexivity. }
  assert (A1 : get_key_short (Z.shiftl 1 KEY1) s = (0, s)).
  { apply press_zero_same; [assumption|].
    fold (get_key_short (Z.shiftl 1 KEY1) s).
    rewrite short_one by (unfold KEY1; lia).
    destruct P1 as [-> | ->]; [reflexivity|].
    now rewrite andb_false_r. }
  assert (A2 : get_key_long (Z.shiftl 1 KEY1) s = (0, s)).
  { assert (E : get_key_rpt (Z.shiftl 1 KEY1) s = (0, s)).
    { apply rpt_zero_same; [assumption|].
      rewrite rpt_one, R1 by (unfold KEY1; lia). reflexivity. }
    unfold get_key_long. rewrite E.
    apply press_zero_same; [assumption | reflexivity]. }
  assert (A3 : get_key_press (Z.shiftl 1 KEY2) s = (0, s)).
  { apply press_zero_same; [assumption|].
    rewrite press_one, P2 by (unfold KEY2; lia). reflexivity. }
  assert (A4 : get_key_rpt (Z.shiftl 1 KEY2) s = (0, s)).
  { apply rpt_zero_same; [assumption|].
    rewrite rpt_one, R2 by (unfold KEY2; lia). reflexivity. }
  pose proof (main_loop_eq s LED_PORT) as E. cbv zeta in E.
  rewrite A0 in E. cbn [fst snd] in E.
  rewrite A1 in E. cbn [fst snd] in E.
  rewrite A2 in E. cbn [fst snd] in E.
  rewrite A3 in E. cbn [fst snd] in E.
  change (0 =? 0) with true in E. cbv iota in E.
  rewrite A4 in E. cbn [fst snd] in E.
  change (0 =? 0) with true in E. exact E.
Qed.

Lemma main_loop_idle_witness :
  main_loop (run [191; 191; 191; 191] (ISR 255 init)) 255
  = (run [191; 191; 191; 191] (ISR 255 init), 255).
Proof.
  apply main_loop_idle.
  - vm_compute. intuition discriminate.
  - reflexivity.
  - right. reflexivity.
  - reflexivity.
  - reflexivity.
  - reflexivity.
Defined.

(** X17.  What a pass through the main loop does to the LEDs when KEY2 has
    no press and no repeat pending.  LED0 toggles exactly when a press of
    KEY0 is pending; LED1 toggles exactly when a press of KEY1 is pending
    and KEY1 is debounced released; LED2 toggles exactly when a repeat and
    a press of KEY1 are pending and KEY1 is still down; the other LED bits
    stay.  So LED1 and LED2 never toggle in the same pass. *)
Theorem main_loop_leds (s : state) (LED_PORT : Z) :
  Z.testbit (key_press s) KEY2 = false ->
  Z.testbit (key_rpt s) KEY2 = false ->
  let out := snd (main_loop s LED_PORT) in
  Z.testbit out LED0 =
    xorb (Z.testbit LED_PORT LED0) (Z.testbit (key_press s) KEY0) /\
  Z.testbit out LED1 =
    xorb (Z.testbit LED_PORT LED1)
         (Z.testbit (key_press s) KEY1 && negb (level KEY1 s)) /\
  Z.testbit out LED2 =
    xorb (Z.testbit LED_PORT LED2)
         (Z.testbit (key_rpt s) KEY1 && Z.testbit (key_press s) KEY1
          && level KEY1 s) /\
  (forall c, 0 <= c < 5 -> Z.testbit out c = Z.testbit LED_PORT c).
Proof.
  intros P2 R2 out. subst out.
  pose proof (main_loop_eq s LED_PORT) as E. cbv zeta in E. rewrite E. clear E.
  cbn [snd].
  set (s0 := snd (get_key_press (Z.shiftl 1 KEY0) s)).
  set (s1 := snd (get_key_short (Z.shiftl 1 KEY1) s0)).
  set (s2 := snd (get_key_long (Z.shiftl 1 KEY1) s1)).
  set (s3 := snd (get_key_press (Z.shiftl 1 KEY2) s2)).
  unfold KEY0, KEY1, KEY2, LED0, LED1, LED2 in *.
  assert (K60 : Z.testbit (key_press s0) 6 = Z.testbit (key_press s) 6).
  { unfold s0. rewrite kp_after_press_one by lia. apply andb_true_r. }
  assert (L60 : level 6 s0 = level 6 s) by reflexivity.
  assert (K61 : Z.testbit (key_press s1) 6
                = Z.testbit (key_press s) 6 && level 6 s).
  { unfold s1. rewrite kp_after_short_one, K60, L60 by lia.
    simpl. now rewrite negb_involutive. }
  assert (R61 : Z.testbit (key_rpt s1) 6 = Z.testbit (key_rpt s) 6)
    by reflexivity.
  assert (K52 : Z.testbit (key_press s2) 5 = false).
  { unfold s2, s1, s0.
    rewrite kp_after_long_one, kp_after_short_one, kp_after_press_one, P2
      by lia. reflexivity. }
  assert (R53 : Z.testbit (key_rpt s3) 5 = false).
  { change (key_rpt s3) with (key_rpt s2). unfold s2.
    rewrite kr_after_long_one by lia.
    change (key_rpt s1) with (key_rpt s). now rewrite R2. }
  rewrite (press_one 5 s2), K52 by lia. cbn [negb].
  rewrite (rpt_one 5 s3), R53 by lia. cbn [negb].
  rewrite (press_one 7 s), (short_one 6 s0), (long_one 6 s1) by lia.
  rewrite K60, L60, K61, R61.
  repeat split; [| | |intros c Hc];
    destruct (Z.testbit (key_press s) 7), (Z.testbit (key_press s) 6),
      (level 6 s), (Z.testbit (key_rpt s) 6); cbn [negb andb];
    bits; rewrite ?shiftl1_bit by lia;
    repeat match goal with
           | |- context [?a =? ?b] =>
               destruct (Z.eqb_spec a b); try lia
           | |- context [?a <? 8] => destruct (Z.ltb_spec a 8); try lia
           end;
    bool_cases.
Qed.

Lemma main_loop_leds_witness :
  Z.testbit (snd (main_loop (ISR 127 init) 255)) LED0
  = xorb (Z.testbit 255 LED0) (Z.testbit (key_press (ISR 127 init)) KEY0).
Proof.
  destruct (main_loop_leds (ISR 127 init) 255) as (H & _);
    [reflexivity | reflexivity | exact H].
Defined.
(** X18.  KEY2 moves the running light on a press and on a repeat, one
    step per pass.  With nothing pending for KEY0 and KEY1: a pending press
    of KEY2 is consumed and steps the light, and a repeat pending at the
    same time is left for the next pass, the second operand of [||] not
    being evaluated; with no press pending, a pending repeat is consumed
    and steps the light. *)
Theorem main_loop_key2 (s : state) (LED_PORT : Z) :
  Z.testbit (key_press s) KEY0 = false ->
  Z.testbit (key_press s) KEY1 = false ->
  Z.testbit (key_rpt s) KEY1 = false ->
  (Z.testbit (key_press s) KEY2 = true ->
   snd (main_loop s LED_PORT) = shift_leds LED_PORT /\
   Z.testbit (key_press (fst (main_loop s LED_PORT))) KEY2 = false /\
   Z.testbit (key_rpt (fst (main_loop s LED_PORT))) KEY2
   = Z.testbit (key_rpt s) KEY2) /\
  (Z.testbit (key_press s) KEY2 = false ->
   Z.testbit (key_rpt s) KEY2 = true ->
   snd (main_loop s LED_PORT) = shift_leds LED_PORT /\
   Z.testbit (key_rpt (fst (main_loop s LED_PORT))) KEY2 = false).
Proof.
  intros P0 P1 R1.
  pose proof (main_loop_eq s LED_PORT) as E. cbv zeta in E. rewrite E. clear E.
  set (s0 := snd (get_key_press (Z.shiftl 1 KEY0) s)).
  set (s1 := snd (get_key_short (Z.shiftl 1 KEY1) s0)).
  set (s2 := snd (get_key_long (Z.shiftl 1 KEY1) s1)).
  set (s3 := snd (get_key_press (Z.shiftl 1 KEY2) s2)).
  unfold KEY0, KEY1, KEY2, LED0, LED1, LED2 in *.
  assert (K60 : Z.testbit (key_press s0) 6 = false).
  { unfold s0. now rewrite kp_after_press_one, P1 by lia. }
  assert (R61 : Z.testbit (key_rpt s1) 6 = false) by exact R1.
  assert (K52 : Z.testbit (key_press s2) 5 = Z.testbit (key_press s) 5).
  { unfold s2, s1, s0.
    rewrite kp_after_long_one, kp_after_short_one, kp_after_press_one by lia.
    simpl. now rewrite !andb_true_r. }
  assert (R53 : Z.testbit (key_rpt s3) 5 = Z.testbit (key_rpt s) 5).
  { change (key_rpt s3) with (key_rpt s2). unfold s2.
    rewrite kr_after_long_one by lia. simpl. apply andb_true_r. }
  rewrite (press_one 7 s), P0 by lia.
  rewrite (short_one 6 s0), K60 by lia.
  rewrite (long_one 6 s1), R61 by lia.
  cbn [negb andb].
  split.
  - intros P2.
    pose proof (press_one 5 s2 ltac:(lia)) as T. rewrite K52, P2 in T.
    fold s3 in T |- *. cbn [negb] in T. rewrite T. cbn [fst snd]. rewrite T.
    repeat split.
    + unfold s3. rewrite kp_after_press_one by lia. apply andb_false_r.
    + exact R53.
  - intros P2 R2.
    pose proof (press_one 5 s2 ltac:(lia)) as T. rewrite K52, P2 in T.
    fold s3 in T |- *. cbn [negb] in T. rewrite T.
    pose proof (rpt_one 5 s3 ltac:(lia)) as U. rewrite R53, R2 in U.
    cbn [negb] in U. cbv iota. rewrite U. cbn [fst snd].
    split; [reflexivity|].
    rewrite get_key_rpt_kr_bit, shiftl1_bit by lia. simpl.
    now rewrite andb_false_r.
Qed.

Lemma main_loop_key2_witness :
  snd (main_loop (mkState 32 32 32 255 255 20) 247) = shift_leds 247 /\
  Z.testbit (key_rpt (fst (main_loop (mkState 32 32 32 255 255 20) 247))) KEY2
  = true.
Proof.
  destruct (main_loop_key2 (mkState 32 32 32 255 255 20) 247) as [H _];
    try reflexivity.
  destruct H as (A & _ & B); [reflexivity|].
  split; [exact A | rewrite B; reflexivity].
Defined.
(** X19.  What the main loop never does: it writes none of the variables of
    the interrupt, and it takes no event of a channel it does not poll;
    the pending press and the pending repeat of KEY3, and of the unused
    channels 0 to 3, pass through untouched. *)
Theorem main_loop_leaves_unpolled (s : state) (LED_PORT : Z) (c : Z) :
  0 <= c < 5 ->
  same_isr_vars (fst (main_loop s LED_PORT)) s /\
  Z.testbit (key_press (fst (main_loop s LED_PORT))) c
  = Z.testbit (key_press s) c /\
  Z.testbit (key_rpt (fst (main_loop s LED_PORT))) c
  = Z.testbit (key_rpt s) c.
Proof.
  intros Hc.
  pose proof (main_loop_eq s LED_PORT) as E. cbv zeta in E. rewrite E. clear E.
  set (s0 := snd (get_key_press (Z.shiftl 1 KEY0) s)).
  set (s1 := snd (get_key_short (Z.shiftl 1 KEY1) s0)).
  set (s2 := snd (get_key_long (Z.shiftl 1 KEY1) s1)).
  set (s3 := snd (get_key_press (Z.shiftl 1 KEY2) s2)).
  unfold KEY0, KEY1, KEY2 in *. cbn [fst].
  assert (K3 : Z.testbit (key_press s3) c = Z.testbit (key_press s) c).
  { unfold s3, s2, s1, s0.
    rewrite kp_after_press_one, kp_after_long_one, kp_after_short_one,
      kp_after_press_one by lia.
    destruct (Z.eqb_spec 5 c), (Z.eqb_spec 6 c), (Z.eqb_spec 7 c); try lia.
    simpl. now rewrite !andb_true_r. }
  assert (R3 : Z.testbit (key_rpt s3) c = Z.testbit (key_rpt s) c).
  { change (key_rpt s3) with (key_rpt s2). unfold s2.
    rewrite kr_after_long_one by lia.
    destruct (Z.eqb_spec 6 c); try lia. simpl. apply andb_true_r. }
  destruct (fst (get_key_press (Z.shiftl 1 5) s2) =? 0); cbn [snd].
  - split; [repeat split | split].
    + exact K3.
    + rewrite get_key_rpt_kr_bit, shiftl1_bit, R3 by lia.
      destruct (Z.eqb_spec 5 c); try lia. low c. simpl.
      now rewrite !andb_true_r.
  - split; [repeat split | split; assumption].
Qed.

Lemma main_loop_leaves_unpolled_witness :
  Z.testbit (key_press (fst (main_loop (mkState 240 0 240 255 255 20) 255))) 4
  = Z.testbit (key_press (mkState 240 0 240 255 255 20)) 4.
Proof.
  destruct (main_loop_leaves_unpolled (mkState 240 0 240 255 255 20) 255 4)
    as (_ & H & _); [lia | exact H].
Defined.
